(** * Zendesk custom-object hooks: a shallow embedding and its properties

    The development follows the TypeScript sources:
    - [src/utils.ts]            : [convertPathParams], [convertQueryParams]
    - [src/lib/core.ts]         : [createNetworkClient] and its [fire]
    - [src/lib/providers/...]   : [useInternalZafClient]
    - [src/hooks/query.ts]      : [useQueryCustomObjects]
    - [src/hooks/insert.ts]     : [usePostCustomObjects]
    - [src/hooks/update.ts]     : [useUpdateCustomObjects]
    - [src/hooks/remove.ts]     : [useDeleteCustomObjects]

    JavaScript values are a small inductive type, strings are [string],
    objects are property lists in own-key order, and effects (requests handed
    to the host transport, user callbacks, cache invalidations, thrown errors)
    are threaded through a state-and-exception monad. *)

From Stdlib Require Import PrimFloat.
From Stdlib Require Import String Ascii List ZArith Bool Lia DecimalString.
Import ListNotations.
Open Scope string_scope.

Set Implicit Arguments.
Set Warnings "-register-all".


(* ===================================================================== *)
(** ** Strings as JavaScript uses them *)
(* ===================================================================== *)

Module JsString.

(** The double-quote character, code unit 34. *)
Definition dquote : ascii := ascii_of_nat 34.
Definition dq : string := String dquote EmptyString.

(** [s.substring(0, n)] for [n] within the string. *)
Fixpoint take (n : nat) (s : string) : string :=
  match n, s with
  | S n', String c s' => String c (take n' s')
  | _, _ => EmptyString
  end.

(** [s.substring(n)]. *)
Fixpoint drop (n : nat) (s : string) : string :=
  match n, s with
  | S n', String _ s' => drop n' s'
  | _, _ => s
  end.

(** [s.indexOf(pat)]; [None] stands for -1. *)
Fixpoint indexOf (s pat : string) : option nat :=
  if prefix pat s then Some 0
  else match s with
       | EmptyString => None
       | String _ s' => option_map S (indexOf s' pat)
       end.

(** [s.includes(pat)]. *)
Definition includes (s pat : string) : bool :=
  match indexOf s pat with Some _ => true | None => false end.

(** The abstract operation GetSubstitution of ECMA-262 for a string
    pattern: there are no captures, so [$n] and [$<] stand for themselves
    and scanning them one code unit at a time gives the same text. *)
Fixpoint GetSubstitution (matched str : string) (position : nat)
         (template : string) : string :=
  match template with
  | EmptyString => EmptyString
  | String c tl =>
      if Ascii.eqb c "$" then
        match tl with
        | EmptyString => String c EmptyString
        | String d rest =>
            if Ascii.eqb d "$" then
              String "$" (GetSubstitution matched str position rest)
            else if Ascii.eqb d "&" then
              matched ++ GetSubstitution matched str position rest
            else if Ascii.eqb d "`" then
              take position str ++ GetSubstitution matched str position rest
            else if Ascii.eqb d "'" then
              drop (position + String.length matched) str
                ++ GetSubstitution matched str position rest
            else String c (GetSubstitution matched str position tl)
        end
      else String c (GetSubstitution matched str position tl)
  end.

(** [s.replace(pat, replaceValue)] with a string pattern and a string
    replacement: only the first match is replaced. *)
Definition replace (s pat replaceValue : string) : string :=
  match indexOf s pat with
  | None => s
  | Some pos =>
      take pos s
        ++ GetSubstitution pat s pos replaceValue
        ++ drop (pos + String.length pat) s
  end.

(** [parts.join(sep)]. *)
Fixpoint join (sep : string) (parts : list string) : string :=
  match parts with
  | [] => EmptyString
  | [p] => p
  | p :: rest => p ++ sep ++ join sep rest
  end.

(** Decimal form of an integer-valued Number. *)
Definition of_Z (n : Z) : string := NilZero.string_of_int (Z.to_int n).

Definition hex_digit (n : nat) : ascii :=
  if Nat.ltb n 10 then ascii_of_nat (48 + n) else ascii_of_nat (87 + n).

(** One code unit of QuoteJSONString. *)
Definition quote_char (c : ascii) : string :=
  let n := nat_of_ascii c in
  if Nat.eqb n 8 then "\b"
  else if Nat.eqb n 9 then "\t"
  else if Nat.eqb n 10 then "\n"
  else if Nat.eqb n 12 then "\f"
  else if Nat.eqb n 13 then "\r"
  else if Nat.eqb n 34 then String "\" dq
  else if Nat.eqb n 92 then "\\"
  else if Nat.ltb n 32 then
    "\u00" ++ String (hex_digit (n / 16)) (String (hex_digit (n mod 16)) EmptyString)
  else String c EmptyString.

Fixpoint quote_body (s : string) : string :=
  match s with
  | EmptyString => EmptyString
  | String c s' => quote_char c ++ quote_body s'
  end.

(** QuoteJSONString. *)
Definition QuoteJSONString (s : string) : string := dq ++ quote_body s ++ dq.

End JsString.
Import JsString.

(* ===================================================================== *)
(** ** JavaScript values *)
(* ===================================================================== *)

(** The values that flow through the hooks.  [JNum] carries integer-valued
    Numbers; [JObj] lists the own enumerable string-keyed properties in the
    order [Object.entries] visits them. *)
Inductive JsValue : Type :=
| JUndefined
| JNull
| JBool (b : bool)
| JNum (n : Z)
| JStr (s : string)
| JArr (items : list JsValue)
| JObj (props : list (string * JsValue)).

(** ToBoolean. *)
Definition truthy (v : JsValue) : bool :=
  match v with
  | JUndefined | JNull => false
  | JBool b => b
  | JNum n => negb (Z.eqb n 0)
  | JStr s => negb (String.eqb s EmptyString)
  | JArr _ | JObj _ => true
  end.

(** The [typeof] operator. *)
Definition typeof (v : JsValue) : string :=
  match v with
  | JUndefined => "undefined"
  | JNull => "object"
  | JBool _ => "boolean"
  | JNum _ => "number"
  | JStr _ => "string"
  | JArr _ | JObj _ => "object"
  end.

(** ToString, as template literals and [String(v)] apply it.  A [JObj] is a
    plain object, without a [toString] of its own. *)
Fixpoint ToString (v : JsValue) : string :=
  match v with
  | JUndefined => "undefined"
  | JNull => "null"
  | JBool b => if b then "true" else "false"
  | JNum n => of_Z n
  | JStr s => s
  | JArr items =>
      join ","
        (map (fun x => match x with
                       | JUndefined | JNull => EmptyString
                       | _ => ToString x
                       end) items)
  | JObj _ => "[object Object]"
  end.

(** [JSON.stringify(v)]; [None] is the [undefined] it returns for
    [undefined]. *)
Fixpoint JSON_stringify (v : JsValue) : option string :=
  match v with
  | JUndefined => None
  | JNull => Some "null"
  | JBool b => Some (if b then "true" else "false")
  | JNum n => Some (of_Z n)
  | JStr s => Some (QuoteJSONString s)
  | JArr items =>
      Some ("[" ++ join ","
                  (map (fun x => match JSON_stringify x with
                                 | Some s => s
                                 | None => "null"
                                 end) items)
                ++ "]")
  | JObj props =>
      Some ("{" ++ join ","
                  (flat_map (fun kv => match JSON_stringify (snd kv) with
                                       | Some s => [QuoteJSONString (fst kv) ++ ":" ++ s]
                                       | None => []
                                       end) props)
                ++ "}")
  end.

(** Property read [o.k] on an object value; [undefined] when absent. *)
Fixpoint get_prop (props : list (string * JsValue)) (k : string) : JsValue :=
  match props with
  | [] => JUndefined
  | (k', v) :: rest => if String.eqb k' k then v else get_prop rest k
  end.

(* ===================================================================== *)
(** ** src/utils.ts *)
(* ===================================================================== *)

(** [Object.entries(params)] of a plain record of values. *)
Definition Params := list (string * JsValue).

(** The placeholder [`{${key}}`]. *)
Definition placeholder (key : string) : string := "{" ++ key ++ "}".

(** [convertPathParams]: a left fold of [acc.replace(`{${key}}`, value)]
    over the entries. *)
Definition convertPathParams (path : string) (params : Params) : string :=
  fold_left
    (fun acc kv => replace acc (placeholder (fst kv)) (ToString (snd kv)))
    params path.

(** [convertQueryParams]. *)
Definition convertQueryParams (path : string) (params : Params) : string :=
  (path ++ "?")
    ++ join "&" (map (fun kv => fst kv ++ "=" ++ ToString (snd kv)) params).


(* ===================================================================== *)
(** ** Effects: the host transport, the trace and the monad *)
(* ===================================================================== *)

(** What a JavaScript [throw] carries in this code base. *)
Inductive JsError : Type :=
| Error (message : string)
| TypeError (message : string).

Inductive Method : Type := GET | POST | PUT | DELETE.

(** The settings object handed to [zaf.request]. *)
Record Request : Type := mkRequest {
  req_url : string;
  req_type : Method;
  req_data : option string;          (* [None] is [undefined] *)
  req_timeout : float;              (* a Number: IEEE binary64 *)
  req_headers : list (string * string);
  req_secure : bool
}.

(** How the promise returned by the host transport settles. *)
Inductive Settled : Type :=
| Resolved (response : JsValue)
| Rejected (reason : JsValue).

(** The host transport handle: the only capability used is [request]. *)
Record ZafClient : Type := mkZaf { request : Request -> Settled }.

(** [ContextProps] of the provider: [{ zaf: client }]. *)
Record ContextProps : Type := mkContext { zaf : ZafClient }.

Definition QueryKey := list string.

(** A user-supplied callback: it is observed when called and either returns
    or throws. *)
Record Callback : Type := mkCallback {
  cb_name : string;
  cb_throws : option JsError
}.

(** What an observer of the library sees, in order. *)
Inductive Event : Type :=
| EvRequest (r : Request)
| EvCall (callback : string) (args : list JsValue)
| EvInvalidate (queryKey : QueryKey)
| EvConsoleError (message : string) (e : JsError).

(** One cached read of the caching library. *)
Record CacheEntry : Type := mkEntry {
  ce_data : JsValue;
  ce_updatedAt : N;
  ce_isInvalidated : bool
}.

(** The state the hooks run in: the React context value (if a provider is
    mounted), whether a QueryClient is provided, the clock in milliseconds,
    the query cache, and the trace of observable events. *)
Record World : Type := mkWorld {
  reactContext : option ContextProps;
  queryClientSet : bool;
  now : N;
  queryCache : list (QueryKey * CacheEntry);
  trace : list Event
}.

Inductive Outcome (A : Type) : Type :=
| Returned (a : A)
| Thrown (e : JsError).
Arguments Thrown {A} e.

(** State and exception monad over [World]. *)
Definition M (A : Type) : Type := World -> Outcome A * World.

Definition ret {A} (a : A) : M A := fun w => (Returned a, w).

Definition throw {A} (e : JsError) : M A := fun w => (Thrown e, w).

Definition bind {A B} (m : M A) (k : A -> M B) : M B :=
  fun w => match m w with
           | (Returned a, w') => k a w'
           | (Thrown e, w') => (Thrown e, w')
           end.

(** [try { m } catch (e) { handler e }]. *)
Definition try_catch {A} (m : M A) (handler : JsError -> M A) : M A :=
  fun w => match m w with
           | (Returned a, w') => (Returned a, w')
           | (Thrown e, w') => handler e w'
           end.

Declare Scope js_scope.
Delimit Scope js_scope with js.
Notation "x <- c1 ;; c2" := (bind c1 (fun x => c2))
  (at level 61, c1 at next level, right associativity) : js_scope.
Notation "c1 ;; c2" := (bind c1 (fun _ => c2))
  (at level 61, right associativity) : js_scope.
Open Scope js_scope.

(** The world with one more observed event. *)
Definition record_event (e : Event) (w : World) : World :=
  mkWorld (reactContext w) (queryClientSet w) (now w) (queryCache w)
          (trace w ++ [e])%list.

(** The world with the query cache replaced. *)
Definition with_queryCache (c : list (QueryKey * CacheEntry)) (w : World) : World :=
  mkWorld (reactContext w) (queryClientSet w) (now w) c (trace w).

Definition emit (e : Event) : M unit := fun w => (Returned tt, record_event e w).

Definition get_world : M World := fun w => (Returned w, w).

Definition set_queryCache (c : list (QueryKey * CacheEntry)) : M unit :=
  fun w => (Returned tt, with_queryCache c w).

(** Calling a user callback. *)
Definition call (f : Callback) (args : list JsValue) : M unit :=
  emit (EvCall (cb_name f) args) ;;
  match cb_throws f with
  | Some e => throw e
  | None => ret tt
  end.

(** [if (f) f(args)] for an optional callback. *)
Definition call_if_provided (f : option Callback) (args : list JsValue) : M unit :=
  match f with
  | Some cb => call cb args
  | None => ret tt
  end.

(** [await zaf.request(settings)]. *)
Definition zaf_request (client : ZafClient) (settings : Request) : M Settled :=
  emit (EvRequest settings) ;;
  ret (request client settings).

(* ===================================================================== *)
(** ** src/lib/providers/custom-objects.tsx *)
(* ===================================================================== *)

Definition useInternalZafClient : M ContextProps :=
  w <- get_world ;;
  match reactContext w with
  | None => throw (Error "useInternalZafClient must be used within CustomObjectsProvider")
  | Some ctx => ret ctx
  end.

(** The world with the React context value replaced. *)
Definition with_reactContext (c : option ContextProps) (w : World) : World :=
  mkWorld c (queryClientSet w) (now w) (queryCache w) (trace w).

(** [CustomObjectsProvider]: the children run with the context value
    [{ zaf: client }]; outside the subtree the enclosing value is back. *)
Definition CustomObjectsProvider {A} (client : ZafClient) (children : M A) : M A :=
  fun w =>
    match children (with_reactContext (Some {| zaf := client |}) w) with
    | (o, w') => (o, with_reactContext (reactContext w) w')
    end.

(* ===================================================================== *)
(** ** src/lib/core.ts *)
(* ===================================================================== *)

(** The [zaf: any] field of the options: the hooks pass the transport handle
    (query, insert, update) or the whole context object (delete). *)
Inductive AnyZaf : Type :=
| ZafHandle (client : ZafClient)
| ZafContextObject (ctx : ContextProps)
| ZafValue (v : JsValue).

Record NetworkConnector : Type := mkConnector {
  nc_zaf : AnyZaf;
  nc_customObjectKey : string;
  nc_timeout : option float          (* [None] is [undefined] *)
}.

Record FirePayload : Type := mkPayload {
  fp_data : JsValue;
  fp_endpoint : string;
  fp_pathParams : option Params;
  fp_params : option Params;
  fp_method : Method
}.

Record NetworkClient : Type := mkClient { fire : FirePayload -> M JsValue }.

Definition headers : list (string * string) := [("Content-Type", "application/json")].

Definition baseEndpoint : string := "/api/v2/custom_objects/".

(** The [url] that [fire] computes before the request. *)
Definition fire_url (customObjectKey : string) (payload : FirePayload) : string :=
  let url := baseEndpoint ++ customObjectKey ++ fp_endpoint payload in
  let url := match fp_pathParams payload with
             | Some pathParams => convertPathParams url pathParams
             | None => url
             end in
  match fp_params payload with
  | Some params => convertQueryParams url params
  | None => url
  end.

(** [timeout || 15000]: the falsy Numbers are the two zeros and NaN. *)
Definition timeout_or_default (timeout : option float) : float :=
  match timeout with
  | Some t => if is_nan t || is_zero t then 15000%float else t
  | None => 15000%float
  end.

(** The settings object [fire] passes to [zaf.request]. *)
Definition fire_request (customObjectKey : string) (timeout : option float)
           (payload : FirePayload) : Request :=
  {| req_url := fire_url customObjectKey payload;
     req_type := fp_method payload;
     req_data := match fp_data payload with
                 | JNull => None
                 | d => JSON_stringify d
                 end;
     req_timeout := timeout_or_default timeout;
     req_headers := headers;
     req_secure := true |}.

(** The [catch] block of [fire]: reading [.status] of [undefined] or [null]
    is itself a TypeError. *)
Definition fire_catch {A} (error : JsValue) : M A :=
  match error with
  | JUndefined =>
      throw (TypeError "Cannot read properties of undefined (reading 'status')")
  | JNull =>
      throw (TypeError "Cannot read properties of null (reading 'status')")
  | _ =>
      let status := match error with
                    | JObj props => get_prop props "status"
                    | _ => JUndefined
                    end in
      if negb (truthy status) then throw (Error (ToString error))
      else throw (Error (ToString error))
  end.

(** The body of [fire], closed over the handle, the key and the timeout that
    [createNetworkClient] captured. *)
Definition fire_with (zaf : ZafClient) (customObjectKey : string)
           (timeout : option float) (payload : FirePayload) : M JsValue :=
  settled <- zaf_request zaf (fire_request customObjectKey timeout payload) ;;
  match settled with
  | Resolved response => ret response
  | Rejected error => fire_catch error
  end.

Definition createNetworkClient (options : NetworkConnector) : M NetworkClient :=
  let customObjectKey := nc_customObjectKey options in
  let timeout := nc_timeout options in
  ctx <- useInternalZafClient ;;
  let zaf := zaf ctx in
  ret {| fire := fire_with zaf customObjectKey timeout |}.

(* ===================================================================== *)
(** ** The caching library, as the hooks use it *)
(* ===================================================================== *)

(** Modelled from the spec: the external caching library is not part of the
    sources.  Following the design notes, a read is an explicit per-key cache
    entry with a last-fetch timestamp, a staleness predicate and an
    invalidation mark; asynchronous completion is sequential here, and the
    library's own retry policy is left out. *)
Definition useQueryClient : M unit :=
  w <- get_world ;;
  if queryClientSet w then ret tt
  else throw (Error "No QueryClient set, use QueryClientProvider to set one").

(** A filter key matches every query key it is a prefix of. *)
Fixpoint partialMatchKey (queryKey filterKey : QueryKey) : bool :=
  match filterKey, queryKey with
  | [], _ => true
  | f :: fs, q :: qs => String.eqb f q && partialMatchKey qs fs
  | _ :: _, [] => false
  end.

Fixpoint hashKey_eqb (a b : QueryKey) : bool :=
  match a, b with
  | [], [] => true
  | x :: xs, y :: ys => String.eqb x y && hashKey_eqb xs ys
  | _, _ => false
  end.

Fixpoint find_entry (cache : list (QueryKey * CacheEntry)) (k : QueryKey)
  : option CacheEntry :=
  match cache with
  | [] => None
  | (k', e) :: rest => if hashKey_eqb k' k then Some e else find_entry rest k
  end.

Fixpoint store_entry (cache : list (QueryKey * CacheEntry)) (k : QueryKey)
         (e : CacheEntry) : list (QueryKey * CacheEntry) :=
  match cache with
  | [] => [(k, e)]
  | (k', e') :: rest =>
      if hashKey_eqb k' k then (k, e) :: rest
      else (k', e') :: store_entry rest k e
  end.

Definition invalidate_entry (filterKey : QueryKey) (ke : QueryKey * CacheEntry)
  : QueryKey * CacheEntry :=
  if partialMatchKey (fst ke) filterKey
  then (fst ke, mkEntry (ce_data (snd ke)) (ce_updatedAt (snd ke)) true)
  else ke.

(** Modelled from the spec: [queryClient.invalidateQueries({ queryKey })]
    marks every cached read under the tag as invalidated. *)
Definition invalidateQueries (queryKey : QueryKey) : M unit :=
  emit (EvInvalidate queryKey) ;;
  w <- get_world ;;
  set_queryCache (map (invalidate_entry queryKey) (queryCache w)).

(** The caller's pass-through options that bear on fetching; a field left
    out is [None]. *)
Record ReactQueryOptions : Type := mkRQOptions {
  rq_refetchOnWindowFocus : option bool;
  rq_staleTime : option N;
  rq_enabled : option bool
}.

Record UseQueryOptions : Type := mkUseQueryOptions {
  queryKey : QueryKey;
  queryFn : M JsValue;
  refetchOnWindowFocus : bool;
  staleTime : N;
  enabled : bool
}.

Record UseQueryResult : Type := mkUseQueryResult {
  uq_data : JsValue;                 (* [JUndefined] while there is none *)
  uq_error : option JsError;
  uq_refetch : M unit
}.

(** An entry is served from the cache while it is neither invalidated nor
    older than the staleness window. *)
Definition is_fresh (e : CacheEntry) (staleTime now : N) : bool :=
  negb (ce_isInvalidated e) && N.ltb now (ce_updatedAt e + staleTime).

(** The hash of a query key: its JSON text. *)
Definition hashKey (k : QueryKey) : string :=
  match JSON_stringify (JArr (map JStr k)) with
  | Some s => s
  | None => EmptyString
  end.

(** Run the query function and record its result under the key.  A query
    function that resolves with [undefined] counts as failed: nothing is
    recorded and the error says that the data is undefined. *)
Definition fetch_query (k : QueryKey) (fn : M JsValue) : M (JsValue * option JsError) :=
  try_catch
    (data <- fn ;;
     match data with
     | JUndefined => throw (Error (hashKey k ++ " data is undefined"))
     | _ =>
         w <- get_world ;;
         set_queryCache (store_entry (queryCache w) k (mkEntry data (now w) false)) ;;
         ret (data, None)
     end)
    (fun e =>
       w <- get_world ;;
       ret (match find_entry (queryCache w) k with
            | Some entry => ce_data entry
            | None => JUndefined
            end, Some e)).

(** Modelled from the spec: [useQuery] serves a fresh cached read and
    otherwise fetches. *)
Definition useQuery (options : UseQueryOptions) : M UseQueryResult :=
  useQueryClient ;;
  w <- get_world ;;
  let k := queryKey options in
  let refetch := (fetch_query k (queryFn options) ;; ret tt) in
  match find_entry (queryCache w) k with
  | Some entry =>
      if negb (enabled options) || is_fresh entry (staleTime options) (now w)
      then ret (mkUseQueryResult (ce_data entry) None refetch)
      else r <- fetch_query k (queryFn options) ;;
           ret (mkUseQueryResult (fst r) (snd r) refetch)
  | None =>
      if enabled options
      then r <- fetch_query k (queryFn options) ;;
           ret (mkUseQueryResult (fst r) (snd r) refetch)
      else ret (mkUseQueryResult JUndefined None refetch)
  end.

Section Mutation.
Variables V R : Type.

Record UseMutationOptions : Type := mkMutationOptions {
  mutationFn : V -> M R;
  onSuccess : R -> M unit;
  onError : JsError -> M unit
}.

(** Modelled from the spec: [mutateAsync] runs the mutation function, then
    [onSuccess]; when either throws it runs [onError] and rejects with the
    error (or with what [onError] itself throws). *)
Definition mutateAsync (options : UseMutationOptions) (variables : V) : M R :=
  try_catch
    (data <- mutationFn options variables ;;
     onSuccess options data ;;
     ret data)
    (fun error => onError options error ;; throw error).

Definition useMutation (options : UseMutationOptions) : M (V -> M R) :=
  useQueryClient ;;
  ret (mutateAsync options).

End Mutation.

(* ===================================================================== *)
(** ** Shared shapes of the hooks *)
(* ===================================================================== *)

(** An optional object-valued parameter: left out ([undefined]), [null], or
    given. *)
Inductive Optional (A : Type) : Type :=
| Absent
| IsNull
| Given (a : A).
Arguments Absent {A}.
Arguments IsNull {A}.

(** Truthiness of an optional object: only a given object is truthy. *)
Definition is_given {A} (o : Optional A) : bool :=
  match o with
  | Given _ => true
  | _ => false
  end.

(** [!x || typeof x !== 'string'], the guard on keys, names and ids. *)
Definition not_a_nonempty_string (x : JsValue) : bool :=
  negb (truthy x) || negb (String.eqb (typeof x) "string").

(** Property read on any value; primitives have no such own property. *)
Definition prop_of (v : JsValue) (k : string) : JsValue :=
  match v with
  | JObj props => get_prop props k
  | _ => JUndefined
  end.

(** The cache tag [`query-custom-objects-${customObjectKey}`]. *)
Definition cache_tag (customObjectKey : string) : string :=
  "query-custom-objects-" ++ customObjectKey.

(** What every mutation hook returns, reduced to its [execute]. *)
Record MutationHookReturn (V R : Type) : Type := mkMutationReturn {
  execute : V -> M R
}.

(* ===================================================================== *)
(** ** src/hooks/query.ts *)
(* ===================================================================== *)

Record SingleFieldSearch : Type := mkSingleField {
  sf_by : string;
  sf_value : JsValue
}.

Record HookParams : Type := mkHookParams {
  hp_customObjectKey : JsValue;
  hp_filterCriteria : Optional (list (string * JsValue));
  hp_translateFn : option (JsValue -> JsValue);
  hp_refetchOnTabChange : bool;
  hp_reactQueryOptions : option ReactQueryOptions;
  hp_searchBySingleField : Optional SingleFieldSearch
}.

Record HookReturn : Type := mkHookReturn {
  hr_data : JsValue;
  hr_error : option JsError;
  hr_refetch : M unit
}.

(** The effective filter of the query hook. *)
Definition criteria_of (filterCriteria : Optional (list (string * JsValue)))
           (searchBySingleField : Optional SingleFieldSearch) : JsValue :=
  let filterKey := match searchBySingleField with
                   | Given sf => "custom_object_fields." ++ sf_by sf
                   | _ => EmptyString
                   end in
  match searchBySingleField with
  | Given sf => JObj [("$and", JArr [JObj [(filterKey, JObj [("$eq", sf_value sf)])]])]
  | _ => match filterCriteria with
         | Given f => JObj f
         | _ => JObj []
         end
  end.

(** The payload of the search request. *)
Definition search_payload (customObjectKey criteria : JsValue) : FirePayload :=
  {| fp_data := criteria;
     fp_endpoint := "/{customObjectKey}/records/search";
     fp_pathParams := Some [("customObjectKey", customObjectKey)];
     fp_params := None;
     fp_method := POST |}.

(** The options object passed to [useQuery], the caller's options spread
    last. *)
Definition query_options (customObjectKey : string) (fn : M JsValue)
           (refetchOnTabChange : bool) (extra : option ReactQueryOptions)
  : UseQueryOptions :=
  let pick {A} (f : ReactQueryOptions -> option A) (d : A) : A :=
    match extra with
    | Some o => match f o with Some x => x | None => d end
    | None => d
    end in
  {| queryKey := [cache_tag customObjectKey; customObjectKey];
     queryFn := fn;
     refetchOnWindowFocus := pick rq_refetchOnWindowFocus refetchOnTabChange;
     staleTime := pick rq_staleTime (1000 * 60 * 1)%N;
     enabled := pick rq_enabled true |}.

Definition useQueryCustomObjects (params : HookParams) : M HookReturn :=
  if not_a_nonempty_string (hp_customObjectKey params)
  then throw (Error "invalid customObjectKey")
  else
    ctx <- useInternalZafClient ;;
    let zaf := zaf ctx in
    (* the key is a string here, so ToString is the identity on it *)
    let customObjectKey := ToString (hp_customObjectKey params) in
    client <- createNetworkClient
                {| nc_zaf := ZafHandle zaf;
                   nc_customObjectKey := customObjectKey;
                   nc_timeout := None |} ;;
    let filterCriteria := hp_filterCriteria params in
    let searchBySingleField := hp_searchBySingleField params in
    if is_given filterCriteria && is_given searchBySingleField
    then throw (Error "You must choose either filterCriteria or searchBySingleField")
    else
      let criteria := criteria_of filterCriteria searchBySingleField in
      q <- useQuery
             (query_options customObjectKey
                (fire client (search_payload (hp_customObjectKey params) criteria))
                (hp_refetchOnTabChange params)
                (hp_reactQueryOptions params)) ;;
      let data := uq_data q in
      let transformedData :=
        match hp_translateFn params with
        | Some translateFn => if truthy data then translateFn data else JArr []
        | None => data
        end in
      ret {| hr_data := transformedData;
             hr_error := uq_error q;
             hr_refetch := uq_refetch q |}.

(* ===================================================================== *)
(** ** src/hooks/insert.ts *)
(* ===================================================================== *)

Record PostHookInput : Type := mkPostHookInput {
  post_customObjectKey : JsValue;
  post_postActionFn : option Callback
}.

(** The [input] of an insert: both fields as the caller passed them. *)
Record InsertInput : Type := mkInsertInput {
  ins_name : JsValue;
  ins_custom_object_fields : JsValue
}.

(** [mutationFn] of the insert hook. *)
Definition insert_mutationFn (client : NetworkClient) (customObjectKey : JsValue)
           (input : InsertInput) : M JsValue :=
  if not_a_nonempty_string (ins_name input)
  then throw (Error "name is required and must be a string")
  else if negb (truthy (ins_custom_object_fields input))
          || negb (String.eqb (typeof (ins_custom_object_fields input)) "object")
  then throw (Error "custom_object_fields is required and must be an object")
  else
    let body :=
      JObj [("custom_object_record",
             JObj [("name", ins_name input);
                   ("custom_object_fields", ins_custom_object_fields input)])] in
    data <- fire client
              {| fp_endpoint := "/records";
                 fp_pathParams := Some [("customObjectKey", customObjectKey)];
                 fp_params := None;
                 fp_method := POST;
                 fp_data := body |} ;;
    ret data.

(** [onSuccess] of the insert hook. *)
Definition insert_onSuccess (customObjectKey : string) (postActionFn : option Callback)
           (_ : JsValue) : M unit :=
  invalidateQueries [cache_tag customObjectKey] ;;
  call_if_provided postActionFn [].

(** [onError] of the insert hook: [console.error]. *)
Definition insert_onError (error : JsError) : M unit :=
  emit (EvConsoleError "Error creating custom object record:" error).

Definition usePostCustomObjects (p : PostHookInput)
  : M (MutationHookReturn InsertInput JsValue) :=
  useQueryClient ;;
  if not_a_nonempty_string (post_customObjectKey p)
  then throw (Error "invalid customObjectKey")
  else
    ctx <- useInternalZafClient ;;
    let zaf := zaf ctx in
    let customObjectKey := ToString (post_customObjectKey p) in
    client <- createNetworkClient
                {| nc_zaf := ZafHandle zaf;
                   nc_customObjectKey := customObjectKey;
                   nc_timeout := None |} ;;
    mutate <- useMutation
      {| mutationFn := insert_mutationFn client (post_customObjectKey p);
         onSuccess := insert_onSuccess customObjectKey (post_postActionFn p);
         onError := insert_onError |} ;;
    ret {| execute := mutate |}.

(* ===================================================================== *)
(** ** src/hooks/custom-objects/update.ts *)
(* ===================================================================== *)

Record UpdateHookInput : Type := mkUpdateHookInput {
  upd_customObjectKey : JsValue;
  upd_postActionFn : option Callback;
  upd_onSuccessFn : option Callback
}.

(** The variables of an update: [{ input, id }]. *)
Record UpdateVariables : Type := mkUpdateVariables {
  uv_name : JsValue;                 (* [JUndefined] when left out *)
  uv_custom_object_fields : JsValue;
  uv_id : JsValue
}.

(** [mutationFn] of the update hook. *)
Definition update_mutationFn (client : NetworkClient) (v : UpdateVariables) : M JsValue :=
  let record := [("custom_object_fields", uv_custom_object_fields v)] in
  let record := if truthy (uv_name v)
                then (record ++ [("name", uv_name v)])%list
                else record in
  let body := JObj [("custom_object_record", JObj record)] in
  let id := uv_id v in
  if not_a_nonempty_string id
  then throw (Error "invalid recordId - must be provided in the mapped data")
  else
    fire client
      {| fp_data := body;
         fp_endpoint := "/records/{id}";
         fp_method := PUT;
         fp_pathParams := Some [("id", id)];
         fp_params := None |} ;;
    ret (JObj [("id", id)]).

(** [onSuccess] of the update hook. *)
Definition update_onSuccess (onSuccessFn postActionFn : option Callback)
           (data : JsValue) : M unit :=
  let id := prop_of data "id" in
  call_if_provided onSuccessFn [id] ;;
  call_if_provided postActionFn [].

(** [onError] of the update hook. *)
Definition update_onError (customObjectKey : string) (_ : JsError) : M unit :=
  throw (Error ("Error updating custom object record with key " ++ customObjectKey)).

Definition useUpdateCustomObjects (p : UpdateHookInput)
  : M (MutationHookReturn UpdateVariables JsValue) :=
  if not_a_nonempty_string (upd_customObjectKey p)
  then throw (Error "invalid customObjectKey")
  else
    ctx <- useInternalZafClient ;;
    let zaf := zaf ctx in
    let customObjectKey := ToString (upd_customObjectKey p) in
    client <- createNetworkClient
                {| nc_zaf := ZafHandle zaf;
                   nc_customObjectKey := customObjectKey;
                   nc_timeout := None |} ;;
    mutate <- useMutation
      {| mutationFn := update_mutationFn client;
         onSuccess := update_onSuccess (upd_onSuccessFn p) (upd_postActionFn p);
         onError := update_onError customObjectKey |} ;;
    ret {| execute := mutate |}.

(* ===================================================================== *)
(** ** src/hooks/remove.ts *)
(* ===================================================================== *)

Record DeleteHookInput : Type := mkDeleteHookInput {
  del_customObjectKey : JsValue;
  del_postActionFn : option Callback;
  del_onSuccessFn : option Callback
}.

(** [mutationFn] of the delete hook; [execute] takes [{ id }] and the
    variable here is that [id]. *)
Definition delete_mutationFn (client : NetworkClient) (id : JsValue) : M JsValue :=
  if not_a_nonempty_string id
  then throw (Error "invalid record id")
  else
    fire client
      {| fp_method := DELETE;
         fp_endpoint := "/records/{id}";
         fp_pathParams := Some [("id", id)];
         fp_params := None;
         fp_data := JNull |} ;;
    ret (JObj [("deletedId", id)]).

(** [onSuccess] of the delete hook. *)
Definition delete_onSuccess (customObjectKey : string)
           (onSuccessFn postActionFn : option Callback) (_ : JsValue) : M unit :=
  call_if_provided onSuccessFn [] ;;
  invalidateQueries [cache_tag customObjectKey] ;;
  call_if_provided postActionFn [].

(** [onError] of the delete hook. *)
Definition delete_onError (customObjectKey : string) (_ : JsError) : M unit :=
  throw (Error ("Error deleting custom object record with key " ++ customObjectKey)).

Definition useDeleteCustomObjects (p : DeleteHookInput)
  : M (MutationHookReturn JsValue JsValue) :=
  useQueryClient ;;
  if not_a_nonempty_string (del_customObjectKey p)
  then throw (Error "invalid customObjectKey")
  else
    zaf <- useInternalZafClient ;;
    let customObjectKey := ToString (del_customObjectKey p) in
    client <- createNetworkClient
                {| nc_zaf := ZafContextObject zaf;
                   nc_customObjectKey := customObjectKey;
                   nc_timeout := None |} ;;
    mutate <- useMutation
      {| mutationFn := delete_mutationFn client;
         onSuccess := delete_onSuccess customObjectKey (del_onSuccessFn p) (del_postActionFn p);
         onError := delete_onError customObjectKey |} ;;
    ret {| execute := mutate |}.

(* ===================================================================== *)
(** ** Vocabulary of the statements *)
(* ===================================================================== *)

(** [pat] occurs in [s] at index [i]. *)
Definition occurs_at (s pat : string) (i : nat) : Prop :=
  exists a b, s = a ++ pat ++ b /\ String.length a = i.

(** The character [c] does not appear in [s]. *)
Fixpoint free_of (c : ascii) (s : string) : bool :=
  match s with
  | EmptyString => true
  | String d s' => negb (Ascii.eqb d c) && free_of c s'
  end.

(** The events of calling an optional callback that returns. *)
Definition opt_call (f : option Callback) (args : list JsValue) : list Event :=
  match f with
  | Some cb => [EvCall (cb_name cb) args]
  | None => []
  end.

(** No event of the list is a cache invalidation. *)
Fixpoint no_invalidation (evs : list Event) : bool :=
  match evs with
  | [] => true
  | EvInvalidate _ :: _ => false
  | _ :: rest => no_invalidation rest
  end.

(** No event of the list is a request to the host transport. *)
Fixpoint no_request (evs : list Event) : bool :=
  match evs with
  | [] => true
  | EvRequest _ :: _ => false
  | _ :: rest => no_request rest
  end.

(** The timeout rule read literally: the configured timeout, or 15000 when
    none is supplied. *)
Definition configured_timeout_or_15000 (timeout : option float) : float :=
  match timeout with
  | Some t => t
  | None => 15000%float
  end.

(** The caller's options do not switch fetching off. *)
Definition fetching_enabled (params : HookParams) : bool :=
  match hp_reactQueryOptions params with
  | Some o => match rq_enabled o with Some b => b | None => true end
  | None => true
  end.

(** The query key of the read hook for a resource key. *)
Definition query_key_of (customObjectKey : JsValue) : QueryKey :=
  [cache_tag (ToString customObjectKey); ToString customObjectKey].

(** The request a search for a resource key issues. *)
Definition search_request (customObjectKey : JsValue)
           (filterCriteria : Optional (list (string * JsValue)))
           (searchBySingleField : Optional SingleFieldSearch) : Request :=
  fire_request (ToString customObjectKey) None
    (search_payload customObjectKey (criteria_of filterCriteria searchBySingleField)).

(** The world at a later time of the clock. *)
Definition at_time (t : N) (w : World) : World :=
  mkWorld (reactContext w) (queryClientSet w) t (queryCache w) (trace w).

(** The [execute] the insert hook returns under a provider holding [ctx]. *)
Definition insert_execute (ctx : ContextProps) (p : PostHookInput)
  : InsertInput -> M JsValue :=
  let customObjectKey := ToString (post_customObjectKey p) in
  mutateAsync
    {| mutationFn := insert_mutationFn (mkClient (fire_with (zaf ctx) customObjectKey None))
                       (post_customObjectKey p);
       onSuccess := insert_onSuccess customObjectKey (post_postActionFn p);
       onError := insert_onError |}.

(** The [execute] the update hook returns under a provider holding [ctx]. *)
Definition update_execute (ctx : ContextProps) (p : UpdateHookInput)
  : UpdateVariables -> M JsValue :=
  let customObjectKey := ToString (upd_customObjectKey p) in
  mutateAsync
    {| mutationFn := update_mutationFn (mkClient (fire_with (zaf ctx) customObjectKey None));
       onSuccess := update_onSuccess (upd_onSuccessFn p) (upd_postActionFn p);
       onError := update_onError customObjectKey |}.

(** The [execute] the delete hook returns under a provider holding [ctx]. *)
Definition delete_execute (ctx : ContextProps) (p : DeleteHookInput)
  : JsValue -> M JsValue :=
  let customObjectKey := ToString (del_customObjectKey p) in
  mutateAsync
    {| mutationFn := delete_mutationFn (mkClient (fire_with (zaf ctx) customObjectKey None));
       onSuccess := delete_onSuccess customObjectKey (del_onSuccessFn p) (del_postActionFn p);
       onError := delete_onError customObjectKey |}.

(** The requests of the three mutations. *)
Definition insert_request (customObjectKey : JsValue) (input : InsertInput) : Request :=
  fire_request (ToString customObjectKey) None
    {| fp_endpoint := "/records";
       fp_pathParams := Some [("customObjectKey", customObjectKey)];
       fp_params := None;
       fp_method := POST;
       fp_data := JObj [("custom_object_record",
                         JObj [("name", ins_name input);
                               ("custom_object_fields", ins_custom_object_fields input)])] |}.

Definition update_request (customObjectKey : JsValue) (v : UpdateVariables) : Request :=
  fire_request (ToString customObjectKey) None
    {| fp_data :=
         JObj [("custom_object_record",
                JObj (if truthy (uv_name v)
                      then [("custom_object_fields", uv_custom_object_fields v);
                            ("name", uv_name v)]
                      else [("custom_object_fields", uv_custom_object_fields v)]))];
       fp_endpoint := "/records/{id}";
       fp_method := PUT;
       fp_pathParams := Some [("id", uv_id v)];
       fp_params := None |}.

Definition delete_request (customObjectKey id : JsValue) : Request :=
  fire_request (ToString customObjectKey) None
    {| fp_method := DELETE;
       fp_endpoint := "/records/{id}";
       fp_pathParams := Some [("id", id)];
       fp_params := None;
       fp_data := JNull |}.

(** The world after a list of events, oldest first. *)
Definition record_events (evs : list Event) (w : World) : World :=
  fold_left (fun w e => record_event e w) evs w.

(** The JSON text of the single-field filter on [status = active]. *)
Definition status_active_filter_json : string :=
  "{" ++ dq ++ "$and" ++ dq ++ ":[{" ++ dq ++ "custom_object_fields.status" ++ dq
      ++ ":{" ++ dq ++ "$eq" ++ dq ++ ":" ++ dq ++ "active" ++ dq ++ "}}]}".

(** Sample inputs for the closing examples: a transport that resolves every
    request with one record, a provider over it, and two callbacks. *)
Definition sample_client : ZafClient :=
  mkZaf (fun _ => Resolved (JArr [JObj [("id", JStr "1")]])).

Definition sample_context : ContextProps := mkContext sample_client.

Definition sample_world : World := mkWorld (Some sample_context) true 0%N [] [].

Definition sample_onSuccessFn : Callback := mkCallback "onSuccessFn" None.

Definition sample_postActionFn : Callback := mkCallback "postActionFn" None.

(** [transformedData] of the query hook. *)
Definition transformed (translateFn : option (JsValue -> JsValue)) (data : JsValue)
  : JsValue :=
  match translateFn with
  | Some f => if truthy data then f data else JArr []
  | None => data
  end.

(** The fixed errors the update and delete hooks reject with. *)
Definition update_failure (customObjectKey : JsValue) : JsError :=
  Error ("Error updating custom object record with key " ++ ToString customObjectKey).

Definition delete_failure (customObjectKey : JsValue) : JsError :=
  Error ("Error deleting custom object record with key " ++ ToString customObjectKey).

(** The error of the provider lookup. *)
Definition provider_missing : JsError :=
  Error "useInternalZafClient must be used within CustomObjectsProvider".

(** A transport that rejects every request with the same reason. *)
Definition rejecting_client (reason : JsValue) : ZafClient :=
  mkZaf (fun _ => Rejected reason).


(** The key of [values] whose placeholder has its first occurrence in
    [template] at index [i], the earliest entry first. *)
Fixpoint placeholder_at (template : string) (values : Params) (i : nat)
  : option (string * JsValue) :=
  match values with
  | [] => None
  | (k, v) :: rest =>
      match indexOf template (placeholder k) with
      | Some j => if Nat.eqb j i then Some (k, v) else placeholder_at template rest i
      | None => placeholder_at template rest i
      end
  end.

(** One pass over the template from index [i]: where the first occurrence
    of a key's placeholder starts, the value's string form is written and
    the placeholder skipped. *)
Fixpoint substitute_from (template : string) (values : Params) (rest : string)
         (i skip : nat) : string :=
  match rest with
  | EmptyString => EmptyString
  | String c rest' =>
      match skip with
      | S skip' => substitute_from template values rest' (S i) skip'
      | O =>
          match placeholder_at template values i with
          | Some (k, v) =>
              ToString v
                ++ substitute_from template values rest' (S i)
                     (String.length (placeholder k) - 1)
          | None => String c (substitute_from template values rest' (S i) 0)
          end
      end
  end.

(** The templating sentence read by its words: for every key of the values,
    the first occurrence of its placeholder in the template itself is
    replaced by the value's string form. *)
Definition substitutePath_spec (template : string) (values : Params) : string :=
  substitute_from template values template 0 0.

(** Templating as the code does it: the entries one after the other, each
    on the string reached so far.  An entry whose placeholder does not occur
    leaves the string; otherwise the first occurrence alone is rewritten and
    what follows it is kept. *)
Inductive templated : string -> Params -> string -> Prop :=
| templated_done (s : string) : templated s [] s
| templated_absent (s k : string) (v : JsValue) (rest : Params) (r : string) :
    (forall i, ~ occurs_at s (placeholder k) i) ->
    templated s rest r ->
    templated s ((k, v) :: rest) r
| templated_first (pre post k : string) (v : JsValue) (rest : Params) (r : string) :
    (forall i, i < String.length pre ->
               ~ occurs_at (pre ++ placeholder k ++ post) (placeholder k) i) ->
    templated (pre ++ GetSubstitution (placeholder k) (pre ++ placeholder k ++ post)
                        (String.length pre) (ToString v) ++ post) rest r ->
    templated (pre ++ placeholder k ++ post) ((k, v) :: rest) r.

(** Running a computation: its outcome and the world it leaves. *)
Definition outcome_of {A} (m : M A) (w : World) : Outcome A := fst (m w).
Definition world_after {A} (m : M A) (w : World) : World := snd (m w).

(** How an outcome agrees with the way the transport settled. *)
Definition settles_as (s : Settled) (o : Outcome JsValue) : Prop :=
  match s with
  | Resolved response => o = Returned response
  | Rejected _ => exists e, o = Thrown e
  end.

(** A world in which the read for [users] was cached at time 0. *)
Definition cached_users_world : World :=
  mkWorld (Some sample_context) true 0%N
          [(query_key_of (JStr "users"), mkEntry (JArr [JObj [("id", JStr "1")]]) 0%N false)]
          [].

(** The world left by deleting record 42 of [users] from that world. *)
Definition after_delete_world : World :=
  world_after
    (delete_execute sample_context
       (mkDeleteHookInput (JStr "users") (Some sample_postActionFn) (Some sample_onSuccessFn))
       (JStr "42"))
    cached_users_world.

(* ===================================================================== *)
(** ** Strings: occurrences and replacement *)
(* ===================================================================== *)

Lemma append_nil_r (s : string) : s ++ EmptyString = s.
Proof. induction s as [|c s IH]; simpl; [reflexivity | now rewrite IH]. Qed.

Lemma append_assoc (a b c : string) : (a ++ b) ++ c = a ++ b ++ c.
Proof. induction a as [|x a IH]; simpl; [reflexivity | now rewrite IH]. Qed.

Lemma prefix_append (p b : string) : prefix p (p ++ b) = true.
Proof.
  induction p as [|c p IH]; simpl.
  - now destruct b.
  - destruct (ascii_dec c c) as [_|n]; [exact IH | now elim n].
Qed.

Lemma prefix_inv (p s : string) : prefix p s = true -> exists b, s = p ++ b.
Proof.
  revert s; induction p as [|c p IH]; intros s H.
  - now exists s.
  - destruct s as [|d s]; simpl in H; [discriminate|].
    destruct (ascii_dec c d) as [->|_]; [|discriminate].
    destruct (IH _ H) as [b ->]. now exists b.
Qed.

Lemma occurs_at_0 (s pat : string) : occurs_at s pat 0 <-> prefix pat s = true.
Proof.
  split.
  - intros (a & b & -> & Ha). destruct a; [|discriminate]. simpl. apply prefix_append.
  - intros H. destruct (@prefix_inv pat s H) as [b ->].
    now exists EmptyString, b.
Qed.

Lemma occurs_at_S (c : ascii) (s pat : string) (i : nat) :
  occurs_at (String c s) pat (S i) <-> occurs_at s pat i.
Proof.
  split.
  - intros (a & b & E & Ha). destruct a as [|d a]; simpl in E, Ha; [discriminate Ha|].
    inversion E; subst. exists a, b. split; [reflexivity | lia].
  - intros (a & b & -> & Ha). exists (String c a), b. simpl. now rewrite Ha.
Qed.

Lemma occurs_at_empty (pat : string) (i : nat) :
  occurs_at EmptyString pat (S i) -> False.
Proof. intros (a & b & E & Ha). destruct a; simpl in E, Ha; [discriminate Ha | discriminate E]. Qed.

Lemma indexOf_nil (pat : string) :
  indexOf EmptyString pat = if prefix pat EmptyString then Some 0 else None.
Proof. reflexivity. Qed.

Lemma indexOf_cons (c : ascii) (s pat : string) :
  indexOf (String c s) pat
  = if prefix pat (String c s) then Some 0 else option_map S (indexOf s pat).
Proof. reflexivity. Qed.

Lemma indexOf_Some (s pat : string) (n : nat) :
  indexOf s pat = Some n ->
  occurs_at s pat n /\ forall i, i < n -> ~ occurs_at s pat i.
Proof.
  revert n; induction s as [|c s IH]; intros n.
  - rewrite indexOf_nil. destruct (prefix pat EmptyString) eqn:P; [|discriminate].
    intros [= <-]. split; [now apply occurs_at_0 | lia].
  - rewrite indexOf_cons. destruct (prefix pat (String c s)) eqn:P.
    + intros [= <-]. split; [now apply occurs_at_0 | lia].
    + destruct (indexOf s pat) as [m|] eqn:E; simpl; [|discriminate].
      intros [= <-]. destruct (IH m eq_refl) as [Hm Hlt]. split.
      * now apply occurs_at_S.
      * intros [|i] Hi Hocc.
        -- apply occurs_at_0 in Hocc. congruence.
        -- apply occurs_at_S in Hocc. apply (Hlt i); [lia | exact Hocc].
Qed.

Lemma indexOf_None (s pat : string) :
  indexOf s pat = None -> forall i, ~ occurs_at s pat i.
Proof.
  induction s as [|c s IH].
  - rewrite indexOf_nil. destruct (prefix pat EmptyString) eqn:P; [discriminate|].
    intros _ [|i] H; [apply occurs_at_0 in H; congruence | now apply occurs_at_empty in H].
  - rewrite indexOf_cons. destruct (prefix pat (String c s)) eqn:P; [discriminate|].
    destruct (indexOf s pat) as [m|] eqn:E; simpl; [discriminate|].
    intros _ [|i] H.
    + apply occurs_at_0 in H. congruence.
    + apply occurs_at_S in H. now apply (IH eq_refl i).
Qed.

(** [indexOf] finds the first occurrence. *)
Lemma indexOf_first (s pat : string) (n : nat) :
  occurs_at s pat n -> (forall i, i < n -> ~ occurs_at s pat i) ->
  indexOf s pat = Some n.
Proof.
  intros Hn Hlt. destruct (indexOf s pat) as [m|] eqn:E.
  - destruct (@indexOf_Some s pat m E) as [Hm Hm'].
    destruct (Nat.lt_trichotomy m n) as [L|[->|L]].
    + now elim (Hlt m L).
    + reflexivity.
    + now elim (Hm' n L).
  - now elim (@indexOf_None s pat E n).
Qed.

Lemma take_append (a b : string) : take (String.length a) (a ++ b) = a.
Proof. induction a as [|c a IH]; simpl; [now destruct b | now rewrite IH]. Qed.

Lemma drop_append (a b : string) : drop (String.length a) (a ++ b) = b.
Proof. induction a as [|c a IH]; simpl; [now destruct b | exact IH]. Qed.

Lemma length_append (a b : string) :
  String.length (a ++ b) = String.length a + String.length b.
Proof. induction a as [|c a IH]; simpl; [reflexivity | now rewrite IH]. Qed.

(** A replacement text without [$] is inserted as it is. *)
Lemma GetSubstitution_literal (matched str : string) (position : nat) (v : string) :
  free_of "$" v = true -> GetSubstitution matched str position v = v.
Proof.
  induction v as [|c v IH]; simpl; [reflexivity|].
  destruct (Ascii.eqb c "$"); simpl; [discriminate|].
  intros H. now rewrite IH.
Qed.

(** [replace] rewrites the first occurrence and nothing after it. *)
Lemma replace_first_occurrence (pre pat post v : string) :
  (forall i, i < String.length pre -> ~ occurs_at (pre ++ pat ++ post) pat i) ->
  replace (pre ++ pat ++ post) pat v
  = pre ++ GetSubstitution pat (pre ++ pat ++ post) (String.length pre) v ++ post.
Proof.
  intros Hfirst. unfold replace.
  rewrite (@indexOf_first _ pat (String.length pre)); [| now exists pre, post | exact Hfirst].
  rewrite take_append. f_equal. f_equal.
  rewrite <- length_append, <- append_assoc. apply drop_append.
Qed.

Lemma replace_absent (s pat v : string) :
  (forall i, ~ occurs_at s pat i) -> replace s pat v = s.
Proof.
  intros H. unfold replace. destruct (indexOf s pat) as [n|] eqn:E; [|reflexivity].
  destruct (@indexOf_Some s pat n E) as [Hn _]. now elim (H n).
Qed.

Lemma convertPathParams_absent (path : string) (params : Params) :
  (forall k v, In (k, v) params -> forall i, ~ occurs_at path (placeholder k) i) ->
  convertPathParams path params = path.
Proof.
  unfold convertPathParams. induction params as [|[k v] rest IH]; intros H; simpl.
  - reflexivity.
  - rewrite replace_absent by (apply (H k v); now left).
    apply IH. intros k' v' Hin. apply (H k' v'). now right.
Qed.

(* ===================================================================== *)
(** ** Running the transport adapter *)
(* ===================================================================== *)

Lemma useInternalZafClient_run (w : World) (ctx : ContextProps) :
  reactContext w = Some ctx -> useInternalZafClient w = (Returned ctx, w).
Proof. intros H. unfold useInternalZafClient, bind, get_world. now rewrite H. Qed.

Lemma useInternalZafClient_missing (w : World) :
  reactContext w = None ->
  useInternalZafClient w
  = (Thrown (Error "useInternalZafClient must be used within CustomObjectsProvider"), w).
Proof. intros H. unfold useInternalZafClient, bind, get_world. now rewrite H. Qed.

Lemma useQueryClient_run (w : World) :
  queryClientSet w = true -> useQueryClient w = (Returned tt, w).
Proof. intros H. unfold useQueryClient, bind, get_world. now rewrite H. Qed.

Lemma fire_catch_throws (A : Type) (error : JsValue) (w : World) :
  exists e, @fire_catch A error w = (Thrown e, w).
Proof.
  unfold fire_catch.
  destruct error; try (eexists; reflexivity);
    match goal with |- context [if ?b then _ else _] => destruct b end;
    eexists; reflexivity.
Qed.

Lemma createNetworkClient_run (options : NetworkConnector) (w : World) (ctx : ContextProps) :
  reactContext w = Some ctx ->
  createNetworkClient options w
  = (Returned (mkClient (fire_with (zaf ctx) (nc_customObjectKey options) (nc_timeout options))), w).
Proof.
  intros H. unfold createNetworkClient, bind.
  now rewrite (useInternalZafClient_run w H).
Qed.

(** Every [fire] hands exactly one request to the transport and leaves the
    rest of the world alone; it returns what the transport resolves with. *)
Lemma fire_with_run (client : ZafClient) (key : string) (timeout : option float)
      (payload : FirePayload) (w : World) :
  let r := fire_request key timeout payload in
  world_after (fire_with client key timeout payload) w = record_event (EvRequest r) w
  /\ match request client r with
     | Resolved response =>
         outcome_of (fire_with client key timeout payload) w = Returned response
     | Rejected _ =>
         exists e, outcome_of (fire_with client key timeout payload) w = Thrown e
     end.
Proof.
  unfold world_after, outcome_of, fire_with, bind, zaf_request, emit, ret. cbn.
  destruct (request client (fire_request key timeout payload)) as [v|err].
  - now split.
  - destruct (fire_catch_throws JsValue err
                (record_event (EvRequest (fire_request key timeout payload)) w)) as [e He].
    rewrite He. split; [reflexivity | now exists e].
Qed.

Lemma fire_with_eq (client : ZafClient) (key : string) (timeout : option float)
      (payload : FirePayload) (w : World) :
  exists o,
    fire_with client key timeout payload w
    = (o, record_event (EvRequest (fire_request key timeout payload)) w)
    /\ settles_as (request client (fire_request key timeout payload)) o.
Proof.
  unfold fire_with, bind, zaf_request, emit, ret, settles_as. cbn.
  destruct (request client (fire_request key timeout payload)) as [v|err].
  - eexists; split; reflexivity.
  - destruct (fire_catch_throws JsValue err
                (record_event (EvRequest (fire_request key timeout payload)) w)) as [e He].
    rewrite He. eexists; split; [reflexivity | now exists e].
Qed.

(* ===================================================================== *)
(** ** Running the caching library *)
(* ===================================================================== *)

Lemma fetch_query_world (k : QueryKey) (client : ZafClient) (key : string)
      (timeout : option float) (payload : FirePayload) (w : World) :
  let r := fire_request key timeout payload in
  exists res,
    fetch_query k (fire_with client key timeout payload) w
    = (Returned res,
       match request client r with
       | Resolved JUndefined => record_event (EvRequest r) w
       | Resolved response =>
           with_queryCache (store_entry (queryCache w) k (mkEntry response (now w) false))
                           (record_event (EvRequest r) w)
       | Rejected _ => record_event (EvRequest r) w
       end).
Proof.
  cbn zeta. unfold fetch_query, try_catch, bind.
  destruct (fire_with_eq client key timeout payload w) as (o & -> & Ho).
  unfold settles_as in Ho.
  destruct (request client (fire_request key timeout payload)) as [v|err].
  - subst o. destruct v; cbn; eexists; reflexivity.
  - destruct Ho as [e ->]. cbn. eexists; reflexivity.
Qed.

Lemma fetch_query_trace (k : QueryKey) (client : ZafClient) (key : string)
      (timeout : option float) (payload : FirePayload) (w : World) :
  trace (world_after (fetch_query k (fire_with client key timeout payload)) w)
  = (trace w ++ [EvRequest (fire_request key timeout payload)])%list.
Proof.
  unfold world_after.
  destruct (fetch_query_world k client key timeout payload w) as [res ->]. cbn.
  destruct (request client (fire_request key timeout payload)) as [v|err];
    [now destruct v | reflexivity].
Qed.

(** A query that is enabled and has no fresh cached read fetches: exactly
    one request is handed to the transport. *)
Lemma useQuery_fetches (options : UseQueryOptions) (client : ZafClient) (key : string)
      (timeout : option float) (payload : FirePayload) (w : World) :
  queryClientSet w = true ->
  enabled options = true ->
  queryFn options = fire_with client key timeout payload ->
  match find_entry (queryCache w) (queryKey options) with
  | Some entry => is_fresh entry (staleTime options) (now w) = false
  | None => True
  end ->
  trace (world_after (useQuery options) w)
  = (trace w ++ [EvRequest (fire_request key timeout payload)])%list.
Proof.
  intros Hq Hen Hfn Hstale. unfold world_after, useQuery, bind at 1.
  rewrite (useQueryClient_run w Hq). unfold bind at 1, get_world at 1.
  rewrite Hen, Hfn. cbn [negb orb].
  pose proof (fetch_query_trace (queryKey options) client key timeout payload w) as T.
  unfold world_after in T.
  destruct (find_entry (queryCache w) (queryKey options)) as [entry|].
  - rewrite Hstale. unfold bind.
    destruct (fetch_query (queryKey options) (fire_with client key timeout payload) w)
      as [[res|e] w'] eqn:E; exact T.
  - unfold bind.
    destruct (fetch_query (queryKey options) (fire_with client key timeout payload) w)
      as [[res|e] w'] eqn:E; exact T.
Qed.

(** A fresh cached read is served without any request. *)
Lemma useQuery_serves_fresh (options : UseQueryOptions) (entry : CacheEntry) (w : World) :
  queryClientSet w = true ->
  find_entry (queryCache w) (queryKey options) = Some entry ->
  is_fresh entry (staleTime options) (now w) = true ->
  useQuery options w
  = (Returned (mkUseQueryResult (ce_data entry) None
                 (fetch_query (queryKey options) (queryFn options) ;; ret tt)), w).
Proof.
  intros Hq Hfind Hfresh. unfold useQuery, bind, get_world.
  rewrite (useQueryClient_run w Hq), Hfind, Hfresh, orb_true_r. reflexivity.
Qed.

(* ===================================================================== *)
(** ** Running the query hook *)
(* ===================================================================== *)

Lemma blank_or_non_string (k : JsValue) :
  k = JStr EmptyString \/ typeof k <> "string" -> not_a_nonempty_string k = true.
Proof.
  unfold not_a_nonempty_string. intros [-> | H]; [reflexivity|].
  destruct k; cbn in *; rewrite ?orb_true_r; try reflexivity. now elim H.
Qed.

(** Past its two guards the query hook is the call of [useQuery]. *)
Lemma query_hook_reaches_useQuery (params : HookParams) (w : World) (ctx : ContextProps) :
  reactContext w = Some ctx ->
  not_a_nonempty_string (hp_customObjectKey params) = false ->
  is_given (hp_filterCriteria params) && is_given (hp_searchBySingleField params) = false ->
  useQueryCustomObjects params w
  = (q <- useQuery
            (query_options (ToString (hp_customObjectKey params))
               (fire_with (zaf ctx) (ToString (hp_customObjectKey params)) None
                  (search_payload (hp_customObjectKey params)
                     (criteria_of (hp_filterCriteria params) (hp_searchBySingleField params))))
               (hp_refetchOnTabChange params) (hp_reactQueryOptions params)) ;;
     ret {| hr_data := match hp_translateFn params with
                       | Some translateFn =>
                           if truthy (uq_data q) then translateFn (uq_data q) else JArr []
                       | None => uq_data q
                       end;
            hr_error := uq_error q;
            hr_refetch := uq_refetch q |}) w.
Proof.
  intros Hctx Hkey Hexcl. unfold useQueryCustomObjects. rewrite Hkey.
  unfold bind at 1. rewrite (useInternalZafClient_run w Hctx).
  unfold bind at 1. rewrite (createNetworkClient_run _ w Hctx).
  rewrite Hexcl. reflexivity.
Qed.

Lemma world_after_bind_ret (A B : Type) (m : M A) (f : A -> B) (w : World) :
  world_after (x <- m ;; ret (f x)) w = world_after m w.
Proof.
  unfold world_after, bind, ret. now destruct (m w) as [[a|e] w'].
Qed.

(** With a provider, a valid key, one criterion at most and fetching left
    on, a query without a usable cached read sends the search request. *)
Lemma query_hook_fetches (params : HookParams) (w : World) (ctx : ContextProps) :
  reactContext w = Some ctx ->
  queryClientSet w = true ->
  not_a_nonempty_string (hp_customObjectKey params) = false ->
  is_given (hp_filterCriteria params) && is_given (hp_searchBySingleField params) = false ->
  fetching_enabled params = true ->
  match find_entry (queryCache w) (query_key_of (hp_customObjectKey params)) with
  | Some entry => ce_isInvalidated entry = true
  | None => True
  end ->
  trace (world_after (useQueryCustomObjects params) w)
  = (trace w ++ [EvRequest (search_request (hp_customObjectKey params)
                              (hp_filterCriteria params)
                              (hp_searchBySingleField params))])%list.
Proof.
  intros Hctx Hq Hkey Hexcl Hen Hcache. unfold world_after at 1.
  rewrite (query_hook_reaches_useQuery params w Hctx Hkey Hexcl).
  match goal with
  | |- trace (snd (bind ?m (fun q => ret (@?f q)) w)) = _ =>
      change (trace (world_after (x <- m ;; ret (f x)) w)
              = (trace w ++ [EvRequest (search_request (hp_customObjectKey params)
                                          (hp_filterCriteria params)
                                          (hp_searchBySingleField params))])%list)
  end.
  rewrite world_after_bind_ret.
  apply useQuery_fetches with (client := zaf ctx).
  - exact Hq.
  - unfold fetching_enabled in Hen. unfold query_options. cbn.
    destruct (hp_reactQueryOptions params) as [o|]; [|reflexivity].
    destruct (rq_enabled o); [exact Hen | reflexivity].
  - reflexivity.
  - change (queryKey (query_options (ToString (hp_customObjectKey params)) _ _ _))
      with (query_key_of (hp_customObjectKey params)).
    destruct (find_entry (queryCache w) (query_key_of (hp_customObjectKey params)))
      as [entry|]; [|exact I].
    unfold is_fresh. now rewrite Hcache.
Qed.

(* ===================================================================== *)
(** ** Inversion of the monad and of the mutation wrapper *)
(* ===================================================================== *)

Lemma bind_returned (A B : Type) (m : M A) (k : A -> M B) (w w2 : World) (b : B) :
  bind m k w = (Returned b, w2) ->
  exists a w1, m w = (Returned a, w1) /\ k a w1 = (Returned b, w2).
Proof.
  unfold bind. destruct (m w) as [[a|e] w1]; [|discriminate].
  intros H. now exists a, w1.
Qed.

Lemma bind_thrown_left (A B : Type) (m : M A) (k : A -> M B) (w w1 : World) (e : JsError) :
  m w = (Thrown e, w1) -> bind m k w = (Thrown e, w1).
Proof. unfold bind. now intros ->. Qed.
Arguments bind_thrown_left {A B m} k {w w1 e} _.

Lemma bind_returned_left (A B : Type) (m : M A) (k : A -> M B) (w w1 : World) (a : A) :
  m w = (Returned a, w1) -> bind m k w = k a w1.
Proof. unfold bind. now intros ->. Qed.
Arguments bind_returned_left {A B m} k {w w1 a} _.

(** A mutation that resolves ran its function and then [onSuccess], both to
    completion. *)
Lemma mutateAsync_returned (V R : Type) (options : UseMutationOptions V R)
      (v : V) (r : R) (w w2 : World) :
  mutateAsync options v w = (Returned r, w2) ->
  exists w1, mutationFn options v w = (Returned r, w1)
             /\ onSuccess options r w1 = (Returned tt, w2).
Proof.
  unfold mutateAsync, try_catch, bind, ret, throw.
  destruct (mutationFn options v w) as [[a|e] w1] eqn:Efn.
  - destruct (onSuccess options a w1) as [[[]|e] w1'] eqn:Eok.
    + intros H. inversion H; subst. exists w1. split; [reflexivity | exact Eok].
    + destruct (onError options e w1') as [[?|?] ?]; discriminate.
  - destruct (onError options e w1) as [[?|?] ?]; discriminate.
Qed.

Lemma record_events_app (evs1 evs2 : list Event) (w : World) :
  record_events (evs1 ++ evs2) w = record_events evs2 (record_events evs1 w).
Proof. unfold record_events. apply fold_left_app. Qed.

Lemma trace_record_events (evs : list Event) (w : World) :
  trace (record_events evs w) = (trace w ++ evs)%list.
Proof.
  revert w; induction evs as [|e evs IH]; intros w; cbn.
  - now rewrite app_nil_r.
  - change (trace (record_events evs (record_event e w)) = (trace w ++ e :: evs)%list).
    rewrite IH. cbn. now rewrite <- app_assoc.
Qed.

Lemma queryCache_record_events (evs : list Event) (w : World) :
  queryCache (record_events evs w) = queryCache w.
Proof.
  revert w; induction evs as [|e evs IH]; intros w; cbn; [reflexivity|].
  change (queryCache (record_events evs (record_event e w)) = queryCache w).
  now rewrite IH.
Qed.

Lemma static_record_events (evs : list Event) (w : World) :
  reactContext (record_events evs w) = reactContext w
  /\ queryClientSet (record_events evs w) = queryClientSet w
  /\ now (record_events evs w) = now w.
Proof.
  revert w; induction evs as [|e evs IH]; intros w; cbn; [now repeat split|].
  change (reactContext (record_events evs (record_event e w)) = reactContext w
          /\ queryClientSet (record_events evs (record_event e w)) = queryClientSet w
          /\ now (record_events evs (record_event e w)) = now w).
  destruct (IH (record_event e w)) as (-> & -> & ->). now repeat split.
Qed.

(** An optional callback that returns has left exactly its call event. *)
Lemma call_if_provided_returned (f : option Callback) (args : list JsValue)
      (w w2 : World) :
  call_if_provided f args w = (Returned tt, w2) ->
  w2 = record_events (opt_call f args) w.
Proof.
  unfold call_if_provided, call, opt_call, bind, emit, ret, throw.
  destruct f as [[name [e|]]|]; cbn; [discriminate | |]; now intros [= <-].
Qed.

Lemma invalidateQueries_run (k : QueryKey) (w : World) :
  invalidateQueries k w
  = (Returned tt,
     with_queryCache (map (invalidate_entry k) (queryCache w))
                     (record_event (EvInvalidate k) w)).
Proof. reflexivity. Qed.

Lemma fire_with_returned (client : ZafClient) (key : string) (timeout : option float)
      (payload : FirePayload) (w w1 : World) (v : JsValue) :
  fire_with client key timeout payload w = (Returned v, w1) ->
  w1 = record_event (EvRequest (fire_request key timeout payload)) w
  /\ request client (fire_request key timeout payload) = Resolved v.
Proof.
  destruct (fire_with_eq client key timeout payload w) as (o & -> & Ho).
  intros H. inversion H; subst. split; [reflexivity|].
  unfold settles_as in Ho.
  destruct (request client (fire_request key timeout payload)) as [response|reason].
  - now inversion Ho.
  - destruct Ho as [e He]. discriminate He.
Qed.

Lemma fire_with_resolved (client : ZafClient) (key : string) (timeout : option float)
      (payload : FirePayload) (w : World) (v : JsValue) :
  request client (fire_request key timeout payload) = Resolved v ->
  fire_with client key timeout payload w
  = (Returned v, record_event (EvRequest (fire_request key timeout payload)) w).
Proof.
  intros Hr. destruct (fire_with_eq client key timeout payload w) as (o & -> & Ho).
  rewrite Hr in Ho. cbn in Ho. now subst o.
Qed.

(* ===================================================================== *)
(** ** Constructing the mutation hooks *)
(* ===================================================================== *)

Lemma insert_hook_run (p : PostHookInput) (w : World) (ctx : ContextProps) :
  queryClientSet w = true ->
  not_a_nonempty_string (post_customObjectKey p) = false ->
  reactContext w = Some ctx ->
  usePostCustomObjects p w = (Returned {| execute := insert_execute ctx p |}, w).
Proof.
  intros Q K C. unfold usePostCustomObjects.
  rewrite (bind_returned_left _ (useQueryClient_run w Q)), K.
  rewrite (bind_returned_left _ (useInternalZafClient_run w C)).
  rewrite (bind_returned_left _ (createNetworkClient_run _ w C)).
  unfold useMutation.
  rewrite (bind_returned_left _ (bind_returned_left _ (useQueryClient_run w Q))).
  reflexivity.
Qed.

Lemma update_hook_run (p : UpdateHookInput) (w : World) (ctx : ContextProps) :
  queryClientSet w = true ->
  not_a_nonempty_string (upd_customObjectKey p) = false ->
  reactContext w = Some ctx ->
  useUpdateCustomObjects p w = (Returned {| execute := update_execute ctx p |}, w).
Proof.
  intros Q K C. unfold useUpdateCustomObjects. rewrite K.
  rewrite (bind_returned_left _ (useInternalZafClient_run w C)).
  rewrite (bind_returned_left _ (createNetworkClient_run _ w C)).
  unfold useMutation.
  rewrite (bind_returned_left _ (bind_returned_left _ (useQueryClient_run w Q))).
  reflexivity.
Qed.

Lemma delete_hook_run (p : DeleteHookInput) (w : World) (ctx : ContextProps) :
  queryClientSet w = true ->
  not_a_nonempty_string (del_customObjectKey p) = false ->
  reactContext w = Some ctx ->
  useDeleteCustomObjects p w = (Returned {| execute := delete_execute ctx p |}, w).
Proof.
  intros Q K C. unfold useDeleteCustomObjects.
  rewrite (bind_returned_left _ (useQueryClient_run w Q)), K.
  rewrite (bind_returned_left _ (useInternalZafClient_run w C)).
  rewrite (bind_returned_left _ (createNetworkClient_run _ w C)).
  unfold useMutation.
  rewrite (bind_returned_left _ (bind_returned_left _ (useQueryClient_run w Q))).
  reflexivity.
Qed.

Lemma useQueryClient_missing (w : World) :
  queryClientSet w = false ->
  useQueryClient w
  = (Thrown (Error "No QueryClient set, use QueryClientProvider to set one"), w).
Proof. intros H. unfold useQueryClient, bind, get_world. now rewrite H. Qed.

(** A hook that was constructed saw a QueryClient, a valid key and a
    provider, and its [execute] is the mutation over that provider. *)
Lemma update_hook_inv (p : UpdateHookInput) (w w1 : World)
      (h : MutationHookReturn UpdateVariables JsValue) :
  useUpdateCustomObjects p w = (Returned h, w1) ->
  w1 = w /\ exists ctx, reactContext w = Some ctx /\ execute h = update_execute ctx p.
Proof.
  intros H.
  destruct (not_a_nonempty_string (upd_customObjectKey p)) eqn:K.
  { unfold useUpdateCustomObjects in H. rewrite K in H. discriminate H. }
  destruct (reactContext w) as [ctx|] eqn:C.
  2:{ unfold useUpdateCustomObjects in H. rewrite K in H.
      rewrite (bind_thrown_left _ (useInternalZafClient_missing w C)) in H.
      discriminate H. }
  destruct (queryClientSet w) eqn:Q.
  - rewrite (update_hook_run p w Q K C) in H. inversion H; subst.
    split; [reflexivity|]. now exists ctx.
  - unfold useUpdateCustomObjects in H. rewrite K in H.
    rewrite (bind_returned_left _ (useInternalZafClient_run w C)) in H.
    rewrite (bind_returned_left _ (createNetworkClient_run _ w C)) in H.
    unfold useMutation in H.
    rewrite (bind_thrown_left _ (bind_thrown_left _ (useQueryClient_missing w Q))) in H.
    discriminate H.
Qed.

Lemma delete_hook_inv (p : DeleteHookInput) (w w1 : World)
      (h : MutationHookReturn JsValue JsValue) :
  useDeleteCustomObjects p w = (Returned h, w1) ->
  w1 = w /\ queryClientSet w = true
  /\ not_a_nonempty_string (del_customObjectKey p) = false
  /\ exists ctx, reactContext w = Some ctx /\ execute h = delete_execute ctx p.
Proof.
  intros H.
  destruct (queryClientSet w) eqn:Q.
  2:{ unfold useDeleteCustomObjects in H.
      rewrite (bind_thrown_left _ (useQueryClient_missing w Q)) in H. discriminate H. }
  destruct (not_a_nonempty_string (del_customObjectKey p)) eqn:K.
  { unfold useDeleteCustomObjects in H.
    rewrite (bind_returned_left _ (useQueryClient_run w Q)), K in H. discriminate H. }
  destruct (reactContext w) as [ctx|] eqn:C.
  - rewrite (delete_hook_run p w Q K C) in H. inversion H; subst.
    repeat (split; [reflexivity|]). now exists ctx.
  - unfold useDeleteCustomObjects in H.
    rewrite (bind_returned_left _ (useQueryClient_run w Q)), K in H.
    rewrite (bind_thrown_left _ (useInternalZafClient_missing w C)) in H.
    discriminate H.
Qed.

Lemma insert_hook_inv (p : PostHookInput) (w w1 : World)
      (h : MutationHookReturn InsertInput JsValue) :
  usePostCustomObjects p w = (Returned h, w1) ->
  w1 = w /\ exists ctx, reactContext w = Some ctx /\ execute h = insert_execute ctx p.
Proof.
  intros H.
  destruct (queryClientSet w) eqn:Q.
  2:{ unfold usePostCustomObjects in H.
      rewrite (bind_thrown_left _ (useQueryClient_missing w Q)) in H. discriminate H. }
  destruct (not_a_nonempty_string (post_customObjectKey p)) eqn:K.
  { unfold usePostCustomObjects in H.
    rewrite (bind_returned_left _ (useQueryClient_run w Q)), K in H. discriminate H. }
  destruct (reactContext w) as [ctx|] eqn:C.
  - rewrite (insert_hook_run p w Q K C) in H. inversion H; subst.
    split; [reflexivity|]. now exists ctx.
  - unfold usePostCustomObjects in H.
    rewrite (bind_returned_left _ (useQueryClient_run w Q)), K in H.
    rewrite (bind_thrown_left _ (useInternalZafClient_missing w C)) in H.
    discriminate H.
Qed.

(* ===================================================================== *)
(** ** Executing the mutations *)
(* ===================================================================== *)

Lemma delete_mutationFn_returned (client : ZafClient) (key : string) (id r : JsValue)
      (w w1 : World) :
  delete_mutationFn (mkClient (fire_with client key None)) id w = (Returned r, w1) ->
  r = JObj [("deletedId", id)]
  /\ w1 = record_event
            (EvRequest (fire_request key None
                          {| fp_method := DELETE;
                             fp_endpoint := "/records/{id}";
                             fp_pathParams := Some [("id", id)];
                             fp_params := None;
                             fp_data := JNull |})) w.
Proof.
  unfold delete_mutationFn.
  destruct (not_a_nonempty_string id); [discriminate|].
  cbn [fire]. intros H.
  apply bind_returned in H as (a & w' & H1 & H2).
  apply fire_with_returned in H1 as [-> _].
  now inversion H2.
Qed.

Lemma delete_onSuccess_returned (key : string) (onSuccessFn postActionFn : option Callback)
      (data : JsValue) (w w2 : World) :
  delete_onSuccess key onSuccessFn postActionFn data w = (Returned tt, w2) ->
  w2 = record_events (opt_call postActionFn [])
         (with_queryCache
            (map (invalidate_entry [cache_tag key]) (queryCache w))
            (record_event (EvInvalidate [cache_tag key])
               (record_events (opt_call onSuccessFn []) w))).
Proof.
  unfold delete_onSuccess. intros H.
  apply bind_returned in H as ([] & w' & H1 & H2).
  apply call_if_provided_returned in H1. subst w'.
  apply bind_returned in H2 as ([] & w'' & H2 & H3).
  rewrite invalidateQueries_run in H2. inversion H2; subst w''.
  apply call_if_provided_returned in H3. subst w2.
  now rewrite queryCache_record_events.
Qed.

(** A delete that resolves: the result, the events in order, the cache. *)
Lemma delete_execute_success (ctx : ContextProps) (p : DeleteHookInput) (id res : JsValue)
      (w w2 : World) :
  delete_execute ctx p id w = (Returned res, w2) ->
  res = JObj [("deletedId", id)]
  /\ trace w2
     = (trace w ++ [EvRequest (delete_request (del_customObjectKey p) id)]
          ++ opt_call (del_onSuccessFn p) []
          ++ [EvInvalidate [cache_tag (ToString (del_customObjectKey p))]]
          ++ opt_call (del_postActionFn p) [])%list
  /\ queryCache w2
     = map (invalidate_entry [cache_tag (ToString (del_customObjectKey p))]) (queryCache w)
  /\ reactContext w2 = reactContext w
  /\ queryClientSet w2 = queryClientSet w.
Proof.
  unfold delete_execute. intros H.
  apply mutateAsync_returned in H as (w1 & Hfn & Hok). cbn [mutationFn onSuccess] in *.
  apply delete_mutationFn_returned in Hfn as [-> ->].
  apply delete_onSuccess_returned in Hok. subst w2.
  split; [reflexivity|]. split; [|split].
  - rewrite trace_record_events. cbn [trace with_queryCache record_event].
    rewrite trace_record_events. cbn [trace record_event].
    unfold delete_request. now rewrite <- !app_assoc.
  - now rewrite queryCache_record_events.
  - destruct (static_record_events (opt_call (del_postActionFn p) [])
                (with_queryCache
                   (map (invalidate_entry [cache_tag (ToString (del_customObjectKey p))])
                      (queryCache
                         (record_event
                            (EvRequest (delete_request (del_customObjectKey p) id)) w)))
                   (record_event
                      (EvInvalidate [cache_tag (ToString (del_customObjectKey p))])
                      (record_events (opt_call (del_onSuccessFn p) [])
                         (record_event
                            (EvRequest (delete_request (del_customObjectKey p) id)) w)))))
      as (E1 & E2 & _).
    unfold delete_request in E1, E2. rewrite E1, E2. cbn.
    destruct (static_record_events (opt_call (del_onSuccessFn p) [])
                (record_event (EvRequest (delete_request (del_customObjectKey p) id)) w))
      as (E3 & E4 & _).
    unfold delete_request in E3, E4. rewrite E3, E4. now split.
Qed.

Lemma update_mutationFn_returned (client : ZafClient) (key : string)
      (v : UpdateVariables) (r : JsValue) (w w1 : World) :
  update_mutationFn (mkClient (fire_with client key None)) v w = (Returned r, w1) ->
  r = JObj [("id", uv_id v)]
  /\ w1 = record_event
            (EvRequest (fire_request key None
                          {| fp_data :=
                               JObj [("custom_object_record",
                                      JObj (if truthy (uv_name v)
                                            then [("custom_object_fields", uv_custom_object_fields v);
                                                  ("name", uv_name v)]
                                            else [("custom_object_fields", uv_custom_object_fields v)]))];
                             fp_endpoint := "/records/{id}";
                             fp_method := PUT;
                             fp_pathParams := Some [("id", uv_id v)];
                             fp_params := None |})) w.
Proof.
  unfold update_mutationFn. cbn zeta.
  destruct (not_a_nonempty_string (uv_id v)); [discriminate|].
  cbn [fire]. intros H.
  apply bind_returned in H as (a & w' & H1 & H2).
  apply fire_with_returned in H1 as [-> _].
  inversion H2; subst. split; [reflexivity|].
  now destruct (truthy (uv_name v)).
Qed.

Lemma update_onSuccess_returned (onSuccessFn postActionFn : option Callback)
      (data : JsValue) (w w2 : World) :
  update_onSuccess onSuccessFn postActionFn data w = (Returned tt, w2) ->
  w2 = record_events (opt_call onSuccessFn [prop_of data "id"] ++ opt_call postActionFn []) w.
Proof.
  unfold update_onSuccess. cbn zeta. intros H.
  apply bind_returned in H as ([] & w' & H1 & H2).
  apply call_if_provided_returned in H1. subst w'.
  apply call_if_provided_returned in H2. subst w2.
  now rewrite record_events_app.
Qed.

(** An update that resolves: the result, the events in order, the cache. *)
Lemma update_execute_success (ctx : ContextProps) (p : UpdateHookInput)
      (v : UpdateVariables) (res : JsValue) (w w2 : World) :
  update_execute ctx p v w = (Returned res, w2) ->
  res = JObj [("id", uv_id v)]
  /\ trace w2
     = (trace w ++ [EvRequest (update_request (upd_customObjectKey p) v)]
          ++ opt_call (upd_onSuccessFn p) [uv_id v]
          ++ opt_call (upd_postActionFn p) [])%list
  /\ queryCache w2 = queryCache w.
Proof.
  unfold update_execute. intros H.
  apply mutateAsync_returned in H as (w1 & Hfn & Hok). cbn [mutationFn onSuccess] in *.
  apply update_mutationFn_returned in Hfn as [-> ->].
  apply update_onSuccess_returned in Hok. subst w2.
  split; [reflexivity|]. split.
  - rewrite trace_record_events. cbn [trace record_event prop_of get_prop].
    unfold update_request. cbn. now rewrite <- !app_assoc.
  - now rewrite queryCache_record_events.
Qed.

(** An insert whose name is empty or not a string is rejected by the
    validation: the only event is the error log, and nothing is sent. *)
Lemma insert_execute_invalid_name (ctx : ContextProps) (p : PostHookInput)
      (input : InsertInput) (w : World) :
  not_a_nonempty_string (ins_name input) = true ->
  insert_execute ctx p input w
  = (Thrown (Error "name is required and must be a string"),
     record_event (EvConsoleError "Error creating custom object record:"
                     (Error "name is required and must be a string")) w).
Proof.
  intros H. unfold insert_execute, mutateAsync, try_catch, bind.
  cbn [mutationFn onSuccess onError]. unfold insert_mutationFn. rewrite H.
  reflexivity.
Qed.

(** An insert that passes the validation hands its POST to the transport
    first, and nothing else it does is a request. *)
Lemma insert_execute_valid (ctx : ContextProps) (p : PostHookInput)
      (input : InsertInput) (w : World) :
  not_a_nonempty_string (ins_name input) = false ->
  truthy (ins_custom_object_fields input) = true ->
  typeof (ins_custom_object_fields input) = "object" ->
  exists rest,
    trace (world_after (insert_execute ctx p input) w)
    = (trace w ++ EvRequest (insert_request (post_customObjectKey p) input) :: rest)%list
    /\ no_request rest = true.
Proof.
  intros Hname Htruthy Htype.
  unfold world_after, insert_execute, mutateAsync, try_catch.
  cbn [mutationFn onSuccess onError]. unfold insert_mutationFn.
  rewrite Hname, Htruthy, Htype. cbn [negb orb String.eqb Ascii.eqb Bool.eqb fire].
  unfold bind at 1 2.
  destruct (fire_with_eq (zaf ctx) (ToString (post_customObjectKey p)) None
              {| fp_data := JObj [("custom_object_record",
                                   JObj [("name", ins_name input);
                                         ("custom_object_fields", ins_custom_object_fields input)])];
                 fp_endpoint := "/records";
                 fp_pathParams := Some [("customObjectKey", post_customObjectKey p)];
                 fp_params := None;
                 fp_method := POST |} w) as (o & E & _).
  rewrite E. fold (insert_request (post_customObjectKey p) input).
  destruct o as [v|e].
  - unfold insert_onSuccess, insert_onError, call_if_provided, call.
    destruct (post_postActionFn p) as [[name [e|]]|]; cbn;
      eexists; (split; [rewrite <- ?app_assoc; reflexivity | reflexivity]).
  - cbn. eexists. split; [rewrite <- ?app_assoc; reflexivity | reflexivity].
Qed.

(* ===================================================================== *)
(** ** The cache tag and the query key *)
(* ===================================================================== *)

Lemma hashKey_eqb_eq (a b : QueryKey) : hashKey_eqb a b = true -> a = b.
Proof.
  revert b; induction a as [|x a IH]; intros [|y b]; cbn; try discriminate; [reflexivity|].
  intros H. apply andb_true_iff in H as [Hx Hab].
  apply String.eqb_eq in Hx. subst y. now rewrite (IH b Hab).
Qed.

(** The tag a mutation invalidates is a prefix of the read hook's key. *)
Lemma cache_tag_matches_query_key (k : JsValue) :
  partialMatchKey (query_key_of k) [cache_tag (ToString k)] = true.
Proof. unfold query_key_of. cbn [partialMatchKey]. now rewrite String.eqb_refl. Qed.

(** After an invalidation every cached read under the tag is marked. *)
Lemma find_entry_invalidated (filterKey k : QueryKey)
      (cache : list (QueryKey * CacheEntry)) (e : CacheEntry) :
  partialMatchKey k filterKey = true ->
  find_entry (map (invalidate_entry filterKey) cache) k = Some e ->
  ce_isInvalidated e = true.
Proof.
  intros Hmatch. induction cache as [|[k' e'] rest IH]; cbn; [discriminate|].
  unfold invalidate_entry at 1. cbn [fst snd].
  destruct (partialMatchKey k' filterKey) eqn:Hk'; cbn [fst snd].
  - destruct (hashKey_eqb k' k) eqn:Heq.
    + intros [= <-]. reflexivity.
    + exact IH.
  - destruct (hashKey_eqb k' k) eqn:Heq.
    + apply hashKey_eqb_eq in Heq. subst k'. congruence.
    + exact IH.
Qed.

(** Without an invalidation, a read cached less than a minute ago is served
    from the cache: no request is sent. *)
Lemma query_hook_serves_fresh (params : HookParams) (w : World) (ctx : ContextProps)
      (entry : CacheEntry) :
  reactContext w = Some ctx ->
  queryClientSet w = true ->
  not_a_nonempty_string (hp_customObjectKey params) = false ->
  is_given (hp_filterCriteria params) && is_given (hp_searchBySingleField params) = false ->
  hp_reactQueryOptions params = None ->
  find_entry (queryCache w) (query_key_of (hp_customObjectKey params)) = Some entry ->
  ce_isInvalidated entry = false ->
  (now w < ce_updatedAt entry + 60000)%N ->
  world_after (useQueryCustomObjects params) w = w.
Proof.
  intros Hctx Hq Hkey Hexcl Hrq Hfind Hinv Hnow. unfold world_after.
  rewrite (query_hook_reaches_useQuery params w Hctx Hkey Hexcl), Hrq.
  rewrite (bind_returned_left _
             (useQuery_serves_fresh
                (query_options (ToString (hp_customObjectKey params))
                   (fire_with (zaf ctx) (ToString (hp_customObjectKey params)) None
                      (search_payload (hp_customObjectKey params)
                         (criteria_of (hp_filterCriteria params)
                            (hp_searchBySingleField params))))
                   (hp_refetchOnTabChange params) None)
                (entry := entry) w Hq Hfind
                ltac:(unfold is_fresh; rewrite Hinv; cbn [negb andb]; now apply N.ltb_lt))).
  reflexivity.
Qed.

(* ===================================================================== *)
(** ** Evaluations on concrete inputs *)
(* ===================================================================== *)

Example replace_first_only :
  convertPathParams "/records/{id}/{id}" [("id", JNum (-42))] = "/records/-42/{id}".
Proof. reflexivity. Qed.

(** The keys are handled one after the other on the running string: a
    placeholder brought in by an earlier value is seen by a later key. *)
Example replace_is_sequential :
  convertPathParams "/{a}/{b}" [("a", JStr "{b}"); ("b", JStr "x")] = "/x/{b}".
Proof. reflexivity. Qed.

(** The replacement patterns of [String.prototype.replace]. *)
Example replace_dollar_patterns :
  convertPathParams "/records/{id}" [("id", JStr "a$$b$&c$1")] = "/records/a$b{id}c$1".
Proof. reflexivity. Qed.

(** Read by its words, the templating sentence agrees with the code on the
    example of the specification and on a repeated placeholder. *)
Example substitutePath_spec_on_the_example :
  substitutePath_spec "/records/{id}" [("id", JStr "42")] = "/records/42"
  /\ substitutePath_spec "/records/{id}/{id}" [("id", JStr "42")] = "/records/42/{id}".
Proof. split; reflexivity. Qed.

(** A search that resolves with [undefined] is reported as an error and is
    not cached. *)
Example query_resolving_with_undefined :
  world_after
    (useQueryCustomObjects (mkHookParams (JStr "users") Absent None true None Absent))
    (with_reactContext (Some (mkContext (mkZaf (fun _ => Resolved JUndefined)))) sample_world)
  = record_event (EvRequest (search_request (JStr "users") Absent Absent))
      (with_reactContext (Some (mkContext (mkZaf (fun _ => Resolved JUndefined))))
                         sample_world)
  /\ match outcome_of
             (useQueryCustomObjects
                (mkHookParams (JStr "users") Absent None true None Absent))
             (with_reactContext (Some (mkContext (mkZaf (fun _ => Resolved JUndefined))))
                                sample_world) with
     | Returned r =>
         hr_data r = JUndefined
         /\ hr_error r
            = Some (Error (hashKey (query_key_of (JStr "users")) ++ " data is undefined"))
     | Thrown _ => False
     end.
Proof. split; [reflexivity|]. cbn. split; reflexivity. Qed.

Example query_string_of_no_params : convertQueryParams "/p" [] = "/p?".
Proof. reflexivity. Qed.

Example stringify_skips_undefined_properties :
  JSON_stringify (JObj [("a", JUndefined); ("b", JArr [JUndefined; JNum 0]); ("c", JStr "q\x")])
  = Some ("{" ++ dq ++ "b" ++ dq ++ ":[null,0]," ++ dq ++ "c" ++ dq ++ ":" ++ dq ++ "q\\x"
              ++ dq ++ "}").
Proof. reflexivity. Qed.

Example stringify_undefined : JSON_stringify JUndefined = None.
Proof. reflexivity. Qed.

(** The three mutation hooks reach the records endpoints of the resource,
    with the key once. *)
Example insert_url :
  req_url (insert_request (JStr "users") (mkInsertInput (JStr "x") (JObj [])))
  = "/api/v2/custom_objects/users/records".
Proof. reflexivity. Qed.

Example update_url :
  req_url (update_request (JStr "users")
             (mkUpdateVariables JUndefined (JObj [("gender", JStr "M")]) (JStr "42")))
  = "/api/v2/custom_objects/users/records/42".
Proof. reflexivity. Qed.

Example delete_url :
  req_url (delete_request (JStr "users") (JStr "42"))
  = "/api/v2/custom_objects/users/records/42".
Proof. reflexivity. Qed.

Example update_body_without_name :
  req_data (update_request (JStr "users")
              (mkUpdateVariables (JStr EmptyString) (JObj [("gender", JStr "M")]) (JStr "42")))
  = Some ("{" ++ dq ++ "custom_object_record" ++ dq ++ ":{" ++ dq ++ "custom_object_fields"
              ++ dq ++ ":{" ++ dq ++ "gender" ++ dq ++ ":" ++ dq ++ "M" ++ dq ++ "}}}").
Proof. reflexivity. Qed.

(** A rejected request makes the update fail with the fixed message. *)
Example update_rejected :
  outcome_of
    (update_execute (mkContext (mkZaf (fun _ => Rejected (JObj [("status", JNum 404)]))))
       (mkUpdateHookInput (JStr "users") None None)
       (mkUpdateVariables JUndefined (JObj []) (JStr "42")))
    sample_world
  = Thrown (Error "Error updating custom object record with key users").
Proof. reflexivity. Qed.

(** An update without an identifier fails although the field mapping is
    valid, and sends nothing. *)
Example update_without_id :
  update_execute sample_context (mkUpdateHookInput (JStr "users") None None)
    (mkUpdateVariables JUndefined (JObj [("gender", JStr "M")]) JUndefined) sample_world
  = (Thrown (Error "Error updating custom object record with key users"), sample_world).
Proof. reflexivity. Qed.

(* ===================================================================== *)
(** ** The claims *)
(* ===================================================================== *)

(** C1.  What the code does for the query hook with resource key [users]:
    the endpoint suffix still carries the [{customObjectKey}] placeholder
    after the key has been appended to the base path, so the search request
    handed to the transport has the key twice in its URL,
    [/api/v2/custom_objects/users/users/records/search], and not
    [/api/v2/custom_objects/users/records/search]. *)
Theorem C1_query_search_url_repeats_key :
  forall (client : ZafClient) (t : N) (tr : list Event)
         (translateFn : option (JsValue -> JsValue)) (refetchOnTabChange : bool)
         (searchBySingleField : Optional SingleFieldSearch),
  exists r,
    trace (world_after
             (useQueryCustomObjects
                (mkHookParams (JStr "users") Absent translateFn refetchOnTabChange None
                              searchBySingleField))
             (mkWorld (Some (mkContext client)) true t [] tr))
    = (tr ++ [EvRequest r])%list
    /\ req_type r = POST
    /\ req_url r = "/api/v2/custom_objects/users/users/records/search"
    /\ req_url r <> "/api/v2/custom_objects/users/records/search".
Proof.
  intros client t tr translateFn refetch sb.
  exists (search_request (JStr "users") Absent sb).
  split; [|split; [reflexivity | split; [reflexivity | discriminate]]].
  apply (query_hook_fetches
           (mkHookParams (JStr "users") Absent translateFn refetch None sb)
           (mkWorld (Some (mkContext client)) true t [] tr)
           (ctx := mkContext client)); first [reflexivity | exact I].
Qed.

(** C2.  When both [filterCriteria] and [searchBySingleField] are given
    (present and not null), the query hook throws and leaves the world as it
    found it, so no request has been handed to the transport; with a valid
    key under a provider the error is the mutual-exclusion one. *)
Theorem C2_filter_and_single_field_are_exclusive :
  forall (params : HookParams) (w : World)
         (f : list (string * JsValue)) (s : SingleFieldSearch),
    hp_filterCriteria params = Given f ->
    hp_searchBySingleField params = Given s ->
    (exists e, useQueryCustomObjects params w = (Thrown e, w))
    /\ (not_a_nonempty_string (hp_customObjectKey params) = false ->
        reactContext w <> None ->
        useQueryCustomObjects params w
        = (Thrown (Error "You must choose either filterCriteria or searchBySingleField"), w)).
Proof.
  intros params w f s Hf Hs.
  assert (Hboth : forall ctx, reactContext w = Some ctx ->
            not_a_nonempty_string (hp_customObjectKey params) = false ->
            useQueryCustomObjects params w
            = (Thrown (Error "You must choose either filterCriteria or searchBySingleField"), w)).
  { intros ctx C K. unfold useQueryCustomObjects. rewrite K.
    rewrite (bind_returned_left _ (useInternalZafClient_run w C)).
    rewrite (bind_returned_left _ (createNetworkClient_run _ w C)).
    rewrite Hf, Hs. reflexivity. }
  split.
  - destruct (not_a_nonempty_string (hp_customObjectKey params)) eqn:K.
    + eexists. unfold useQueryCustomObjects. rewrite K. reflexivity.
    + destruct (reactContext w) as [ctx|] eqn:C.
      * eexists. exact (Hboth ctx eq_refl eq_refl).
      * eexists. unfold useQueryCustomObjects. rewrite K.
        exact (bind_thrown_left _ (useInternalZafClient_missing w C)).
  - intros K C. destruct (reactContext w) as [ctx|] eqn:C'; [|now elim C].
    exact (Hboth ctx eq_refl K).
Qed.

Lemma C2_filter_and_single_field_witness :
  useQueryCustomObjects
    (mkHookParams (JStr "users") (Given [("filter", JObj [])]) None true None
                  (Given (mkSingleField "status" (JStr "active"))))
    sample_world
  = (Thrown (Error "You must choose either filterCriteria or searchBySingleField"),
     sample_world).
Proof.
  apply (C2_filter_and_single_field_are_exclusive
           (mkHookParams (JStr "users") (Given [("filter", JObj [])]) None true None
                         (Given (mkSingleField "status" (JStr "active"))))
           sample_world (f := [("filter", JObj [])])
           (s := mkSingleField "status" (JStr "active")) eq_refl eq_refl).
  - reflexivity.
  - discriminate.
Defined.

(** C3.  With [searchBySingleField = {by: status, value: active}] and no
    filter, the effective filter is
    [{ $and: [ { custom_object_fields.status: { $eq: active } } ] }] and the
    body of the search request is its JSON text; with neither criterion the
    effective filter is the empty object and the body is [{}]. *)
Theorem C3_effective_filter :
  forall (fc : Optional (list (string * JsValue))),
    is_given fc = false ->
    (criteria_of fc (Given (mkSingleField "status" (JStr "active")))
     = JObj [("$and",
              JArr [JObj [("custom_object_fields.status",
                           JObj [("$eq", JStr "active")])]])]
     /\ forall k,
          req_data (search_request k fc (Given (mkSingleField "status" (JStr "active"))))
          = Some status_active_filter_json)
    /\ (forall sb : Optional SingleFieldSearch,
          is_given sb = false ->
          criteria_of fc sb = JObj []
          /\ forall k, req_data (search_request k fc sb) = Some "{}")
    /\ (forall (params : HookParams) (w : World) (ctx : ContextProps),
          hp_filterCriteria params = fc ->
          reactContext w = Some ctx ->
          queryClientSet w = true ->
          queryCache w = [] ->
          not_a_nonempty_string (hp_customObjectKey params) = false ->
          is_given (hp_searchBySingleField params) = false
          \/ hp_searchBySingleField params = Given (mkSingleField "status" (JStr "active")) ->
          fetching_enabled params = true ->
          exists r,
            trace (world_after (useQueryCustomObjects params) w)
            = (trace w ++ [EvRequest r])%list
            /\ req_data r
               = Some (if is_given (hp_searchBySingleField params)
                       then status_active_filter_json else "{}")).
Proof.
  intros fc Hfc. split; [|split].
  - split; [reflexivity | intros k; reflexivity].
  - intros sb Hsb.
    assert (E : criteria_of fc sb = JObj []).
    { unfold criteria_of. destruct sb; try discriminate; destruct fc; try discriminate;
        reflexivity. }
    split; [exact E|]. intros k. unfold search_request, fire_request. cbn [req_data fp_data search_payload].
    now rewrite E.
  - intros params w ctx Hp C Q Hcache K Hsb Hen.
    exists (search_request (hp_customObjectKey params) (hp_filterCriteria params)
              (hp_searchBySingleField params)).
    split.
    + apply (query_hook_fetches params w (ctx := ctx)); trivial.
      * rewrite Hp, Hfc. reflexivity.
      * now rewrite Hcache.
    + rewrite Hp. destruct Hsb as [Hsb | ->].
      * rewrite Hsb. unfold search_request, fire_request. cbn [req_data fp_data search_payload].
        assert (E : criteria_of fc (hp_searchBySingleField params) = JObj []).
        { unfold criteria_of. destruct (hp_searchBySingleField params); try discriminate;
            destruct fc; try discriminate; reflexivity. }
        now rewrite E.
      * reflexivity.
Qed.

Lemma C3_effective_filter_witness :
  exists r,
    trace (world_after
             (useQueryCustomObjects
                (mkHookParams (JStr "users") Absent None true None
                              (Given (mkSingleField "status" (JStr "active")))))
             sample_world)
    = [EvRequest r]
    /\ req_data r = Some status_active_filter_json.
Proof.
  destruct (@C3_effective_filter Absent eq_refl) as (_ & _ & H).
  exact (H (mkHookParams (JStr "users") Absent None true None
                         (Given (mkSingleField "status" (JStr "active"))))
           sample_world sample_context eq_refl eq_refl eq_refl eq_refl eq_refl
           (or_intror eq_refl) eq_refl).
Defined.

(** C4 as stated fails when a value brings in the placeholder of a later
    key: for the key [b] the code rewrites the occurrence that the value of
    [a] wrote, and the first occurrence of [{b}] in the template stays. *)
Lemma C4_later_key_counterexample :
  convertPathParams "/{a}/{b}" [("a", JStr "{b}"); ("b", JStr "x")] = "/x/{b}"
  /\ substitutePath_spec "/{a}/{b}" [("a", JStr "{b}"); ("b", JStr "x")] = "/{b}/x"
  /\ convertPathParams "/{a}/{b}" [("a", JStr "{b}"); ("b", JStr "x")]
     <> substitutePath_spec "/{a}/{b}" [("a", JStr "{b}"); ("b", JStr "x")].
Proof. split; [reflexivity|]. split; [reflexivity | discriminate]. Qed.

Lemma templated_convertPathParams (path : string) (params : Params) :
  templated path params (convertPathParams path params).
Proof.
  revert path. induction params as [|[k v] rest IH]; intros path.
  - apply templated_done.
  - change (convertPathParams path ((k, v) :: rest))
      with (convertPathParams (replace path (placeholder k) (ToString v)) rest).
    destruct (indexOf path (placeholder k)) as [n|] eqn:E.
    + destruct (@indexOf_Some path (placeholder k) n E) as [(pre & post & -> & Hlen) Hfirst].
      subst n. rewrite replace_first_occurrence by exact Hfirst.
      apply templated_first; [exact Hfirst | apply IH].
    + rewrite replace_absent by exact (@indexOf_None path (placeholder k) E).
      apply templated_absent; [exact (@indexOf_None path (placeholder k) E) | apply IH].
Qed.

Lemma templated_unique (path : string) (params : Params) (r : string) :
  templated path params r -> r = convertPathParams path params.
Proof.
  induction 1 as [s | s k v rest r Habsent _ IH | pre post k v rest r Hfirst _ IH].
  - reflexivity.
  - rewrite IH. unfold convertPathParams. cbn [fold_left fst snd].
    now rewrite replace_absent.
  - rewrite IH. unfold convertPathParams. cbn [fold_left fst snd].
    now rewrite replace_first_occurrence.
Qed.

(** C4, amended.  Templating [/records/{id}] with [{id: 42}] yields
    [/records/42]; appending [{a: 1, b: x}] to [/p] yields [/p?a=1&b=x], the
    entries in iteration order.  The keys of the values are taken in
    iteration order, each on the string reached after the earlier keys (the
    template for the first one): only the first occurrence of the key's
    placeholder in that string is replaced, what follows it is kept, and a
    placeholder that does not occur there leaves the string unchanged.  The
    result of the code is the one string these steps lead to. *)
Theorem C4_templating_is_sequential :
  convertPathParams "/records/{id}" [("id", JStr "42")] = "/records/42"
  /\ convertQueryParams "/p" [("a", JNum 1); ("b", JStr "x")] = "/p?a=1&b=x"
  /\ (forall path params, templated path params (convertPathParams path params))
  /\ (forall path params r, templated path params r -> r = convertPathParams path params)
  /\ (forall pre post k v rest,
        (forall i, i < String.length pre ->
                   ~ occurs_at (pre ++ placeholder k ++ post) (placeholder k) i) ->
        free_of "$" (ToString v) = true ->
        convertPathParams (pre ++ placeholder k ++ post) ((k, v) :: rest)
        = convertPathParams (pre ++ ToString v ++ post) rest)
  /\ (forall path params,
        (forall k v, In (k, v) params -> forall i, ~ occurs_at path (placeholder k) i) ->
        convertPathParams path params = path).
Proof.
  split; [reflexivity|]. split; [reflexivity|].
  split; [exact templated_convertPathParams|].
  split; [exact templated_unique|]. split.
  - intros pre post k v rest Hfirst Hfree.
    unfold convertPathParams. cbn [fold_left fst snd].
    rewrite replace_first_occurrence by exact Hfirst.
    now rewrite GetSubstitution_literal.
  - exact convertPathParams_absent.
Qed.

Lemma C4_templating_is_sequential_witness :
  convertPathParams "/records/{id}/{id}" [("id", JStr "42")] = "/records/42/{id}"
  /\ convertPathParams "/records" [("id", JStr "42"); ("name", JNum 7)] = "/records"
  /\ templated "/{a}/{b}" [("a", JStr "{b}"); ("b", JStr "x")] "/x/{b}".
Proof.
  destruct C4_templating_is_sequential as (_ & _ & Hsteps & _ & Hfirst & Habsent).
  split; [|split].
  - apply (Hfirst "/records/" "/{id}" "id" (JStr "42") []); [|reflexivity].
    apply (@indexOf_Some "/records/{id}/{id}" "{id}" 9 eq_refl).
  - apply Habsent. intros k v [E | [E | []]] i; inversion E; subst.
    + apply (@indexOf_None "/records" "{id}" eq_refl).
    + apply (@indexOf_None "/records" "{name}" eq_refl).
  - exact (Hsteps "/{a}/{b}" [("a", JStr "{b}"); ("b", JStr "x")]).
Defined.

(** C5.  Constructing any of the four hooks with a key that is the empty
    string or not a string throws at construction and leaves the world as
    it found it, so no request is attempted.  The query and update hooks
    throw [invalid customObjectKey]; so do the insert and delete hooks once
    their preceding [useQueryClient] has found a QueryClient. *)
Theorem C5_invalid_key_throws_at_construction :
  forall (k : JsValue) (w : World),
    k = JStr EmptyString \/ typeof k <> "string" ->
    (forall fc tf r rqo sb,
        useQueryCustomObjects (mkHookParams k fc tf r rqo sb) w
        = (Thrown (Error "invalid customObjectKey"), w))
    /\ (forall post,
          exists e,
            usePostCustomObjects (mkPostHookInput k post) w = (Thrown e, w)
            /\ (queryClientSet w = true -> e = Error "invalid customObjectKey"))
    /\ (forall post ok,
          useUpdateCustomObjects (mkUpdateHookInput k post ok) w
          = (Thrown (Error "invalid customObjectKey"), w))
    /\ (forall post ok,
          exists e,
            useDeleteCustomObjects (mkDeleteHookInput k post ok) w = (Thrown e, w)
            /\ (queryClientSet w = true -> e = Error "invalid customObjectKey")).
Proof.
  intros k w Hk. apply blank_or_non_string in Hk. repeat split.
  - intros. unfold useQueryCustomObjects. cbn [hp_customObjectKey]. now rewrite Hk.
  - intros post. unfold usePostCustomObjects. cbn [post_customObjectKey].
    destruct (queryClientSet w) eqn:Q.
    + rewrite (bind_returned_left _ (useQueryClient_run w Q)), Hk.
      eexists; split; reflexivity.
    + rewrite (bind_thrown_left _ (useQueryClient_missing w Q)).
      eexists; split; [reflexivity | discriminate].
  - intros. unfold useUpdateCustomObjects. cbn [upd_customObjectKey]. now rewrite Hk.
  - intros post ok. unfold useDeleteCustomObjects. cbn [del_customObjectKey].
    destruct (queryClientSet w) eqn:Q.
    + rewrite (bind_returned_left _ (useQueryClient_run w Q)), Hk.
      eexists; split; reflexivity.
    + rewrite (bind_thrown_left _ (useQueryClient_missing w Q)).
      eexists; split; [reflexivity | discriminate].
Qed.

Lemma C5_invalid_key_witness :
  useQueryCustomObjects (mkHookParams (JStr EmptyString) Absent None true None Absent)
                        sample_world
  = (Thrown (Error "invalid customObjectKey"), sample_world)
  /\ useUpdateCustomObjects (mkUpdateHookInput (JNum 7) None None) sample_world
     = (Thrown (Error "invalid customObjectKey"), sample_world).
Proof.
  split.
  - apply (C5_invalid_key_throws_at_construction (k := JStr EmptyString) sample_world
             (or_introl eq_refl)).
  - apply (C5_invalid_key_throws_at_construction (k := JNum 7) sample_world).
    right. discriminate.
Defined.

(** C6.  For an insert hook that was constructed, executing it with
    [{name: (empty), custom_object_fields: {a: 1}}] throws the validation
    error on the name and the trace gains only the error log, so [fire] was
    not called; executing it with [{name: x, custom_object_fields: {}}]
    passes the validation, the empty mapping being a present object, and the
    next event is the POST to the records endpoint carrying the record. *)
Theorem C6_insert_validation :
  forall (p : PostHookInput) (w w1 : World) (h : MutationHookReturn InsertInput JsValue),
    usePostCustomObjects p w = (Returned h, w1) ->
    (forall w',
        outcome_of (execute h (mkInsertInput (JStr EmptyString) (JObj [("a", JNum 1)]))) w'
        = Thrown (Error "name is required and must be a string")
        /\ exists evs,
             trace (world_after
                      (execute h (mkInsertInput (JStr EmptyString) (JObj [("a", JNum 1)]))) w')
             = (trace w' ++ evs)%list
             /\ no_request evs = true)
    /\ (forall w',
          exists r rest,
            trace (world_after (execute h (mkInsertInput (JStr "x") (JObj []))) w')
            = (trace w' ++ EvRequest r :: rest)%list
            /\ no_request rest = true
            /\ r = insert_request (post_customObjectKey p) (mkInsertInput (JStr "x") (JObj []))
            /\ req_type r = POST
            /\ req_data r
               = Some ("{" ++ dq ++ "custom_object_record" ++ dq ++ ":{" ++ dq ++ "name" ++ dq
                           ++ ":" ++ dq ++ "x" ++ dq ++ "," ++ dq ++ "custom_object_fields"
                           ++ dq ++ ":{}}}")).
Proof.
  intros p w w1 h H. apply insert_hook_inv in H as (-> & ctx & C & ->). split.
  - intros w'. unfold outcome_of, world_after.
    rewrite (insert_execute_invalid_name ctx p
               (mkInsertInput (JStr EmptyString) (JObj [("a", JNum 1)])) w' eq_refl).
    split; [reflexivity|].
    exists [EvConsoleError "Error creating custom object record:"
              (Error "name is required and must be a string")].
    split; reflexivity.
  - intros w'.
    destruct (insert_execute_valid ctx p (mkInsertInput (JStr "x") (JObj [])) w'
                eq_refl eq_refl eq_refl) as (rest & Htrace & Hrest).
    exists (insert_request (post_customObjectKey p) (mkInsertInput (JStr "x") (JObj []))), rest.
    repeat split; trivial.
Qed.

Lemma C6_insert_validation_witness :
  outcome_of (insert_execute sample_context (mkPostHookInput (JStr "users") None)
                (mkInsertInput (JStr EmptyString) (JObj [("a", JNum 1)])))
             sample_world
  = Thrown (Error "name is required and must be a string")
  /\ exists rest,
       trace (world_after
                (insert_execute sample_context (mkPostHookInput (JStr "users") None)
                   (mkInsertInput (JStr "x") (JObj [])))
                sample_world)
       = EvRequest (insert_request (JStr "users") (mkInsertInput (JStr "x") (JObj []))) :: rest
       /\ req_url (insert_request (JStr "users") (mkInsertInput (JStr "x") (JObj [])))
          = "/api/v2/custom_objects/users/records".
Proof.
  destruct (@C6_insert_validation (mkPostHookInput (JStr "users") None)
              sample_world sample_world
              {| execute := insert_execute sample_context (mkPostHookInput (JStr "users") None) |}
              eq_refl) as [Hbad Hgood].
  split.
  - exact (proj1 (Hbad sample_world)).
  - destruct (Hgood sample_world) as (r & rest & Htrace & _ & -> & _).
    exists rest. split; [exact Htrace | reflexivity].
Defined.

(** C7 as stated fails on the timeout: a configured timeout of 0 is falsy,
    so the request carries 15000 and not the configured value. *)
Lemma C7_timeout_zero_counterexample :
  req_timeout (fire_request "users" (Some 0%float)
                 (mkPayload JNull "/records/{id}" (Some [("id", JStr "42")]) None DELETE))
  = 15000%float
  /\ req_timeout (fire_request "users" (Some 0%float)
                    (mkPayload JNull "/records/{id}" (Some [("id", JStr "42")]) None DELETE))
     <> configured_timeout_or_15000 (Some 0%float).
Proof.
  split; [reflexivity|]. cbn. intros H.
  assert (E : is_zero 15000%float = is_zero 0%float) by now rewrite H.
  discriminate E.
Qed.

(** C7, amended.  Under a provider, every [fire] hands exactly one request
    to the host transport, and that request carries the header
    [Content-Type: application/json], the secure flag, the configured
    timeout when one is supplied and is neither a zero nor NaN and 15000
    otherwise (none supplied, 0, -0 or NaN), and as body the JSON
    serialization of [data], or no body when [data] is [null]. *)
Theorem C7_request_shape :
  forall (options : NetworkConnector) (w : World) (ctx : ContextProps),
    reactContext w = Some ctx ->
    exists client,
      createNetworkClient options w = (Returned client, w)
      /\ forall (payload : FirePayload) (w' : World),
           exists r,
             trace (world_after (fire client payload) w') = (trace w' ++ [EvRequest r])%list
             /\ req_headers r = [("Content-Type", "application/json")]
             /\ req_secure r = true
             /\ (forall t, nc_timeout options = Some t ->
                           is_zero t = false -> is_nan t = false -> req_timeout r = t)
             /\ (nc_timeout options = None
                 \/ (exists t, nc_timeout options = Some t
                                /\ (is_zero t = true \/ is_nan t = true)) ->
                 req_timeout r = 15000%float)
             /\ (fp_data payload = JNull -> req_data r = None)
             /\ (fp_data payload <> JNull -> req_data r = JSON_stringify (fp_data payload))
             /\ req_type r = fp_method payload
             /\ req_url r = fire_url (nc_customObjectKey options) payload.
Proof.
  intros options w ctx C.
  exists (mkClient (fire_with (zaf ctx) (nc_customObjectKey options) (nc_timeout options))).
  split; [exact (createNetworkClient_run options w C)|].
  intros payload w'.
  exists (fire_request (nc_customObjectKey options) (nc_timeout options) payload).
  cbn [fire]. split.
  - unfold world_after.
    destruct (fire_with_eq (zaf ctx) (nc_customObjectKey options) (nc_timeout options)
                payload w') as (o & -> & _).
    reflexivity.
  - cbn [fire_request req_headers req_secure req_timeout req_data req_type req_url].
    repeat split.
    + intros t -> Hz Hn. unfold timeout_or_default. now rewrite Hz, Hn.
    + intros [-> | (t & -> & [Hz | Hn])]; unfold timeout_or_default.
      * reflexivity.
      * rewrite Hz. now rewrite orb_true_r.
      * now rewrite Hn.
    + now intros ->.
    + intros Hd. destruct (fp_data payload); try reflexivity. now elim Hd.
Qed.

Lemma C7_request_shape_witness :
  exists client,
    createNetworkClient (mkConnector (ZafValue JUndefined) "users" (Some 3000%float))
                        sample_world
    = (Returned client, sample_world)
    /\ exists r,
         trace (world_after
                  (fire client (mkPayload JNull "/records/{id}" (Some [("id", JStr "42")])
                                          None DELETE))
                  sample_world)
         = [EvRequest r]
         /\ req_timeout r = 3000%float
         /\ req_data r = None
         /\ req_url r = "/api/v2/custom_objects/users/records/42".
Proof.
  destruct (@C7_request_shape (mkConnector (ZafValue JUndefined) "users" (Some 3000%float))
              sample_world sample_context eq_refl) as (client & Hrun & Hfire).
  exists client. split; [exact Hrun|].
  destruct (Hfire (mkPayload JNull "/records/{id}" (Some [("id", JStr "42")]) None DELETE)
                  sample_world)
    as (r & Htrace & _ & _ & Ht & _ & Hnull & _ & _ & Hurl).
  exists r. split; [exact Htrace|]. split; [|split].
  - exact (Ht 3000%float eq_refl eq_refl eq_refl).
  - exact (Hnull eq_refl).
  - exact Hurl.
Defined.

(** C8.  When an execution of a constructed delete hook resolves, the events
    after the DELETE request are, in this order: the call of the success
    callback (if provided), the invalidation of the reads under the resource
    key's cache tag, the call of the post-success callback (if provided).
    From then on a query hook for the same resource key, whenever it runs
    under the providers, finds no usable cached read and sends a fresh
    search request. *)
Theorem C8_delete_success_order :
  forall (p : DeleteHookInput) (w w1 : World) (h : MutationHookReturn JsValue JsValue),
    useDeleteCustomObjects p w = (Returned h, w1) ->
    forall (w' w2 : World) (id res : JsValue),
      execute h id w' = (Returned res, w2) ->
      trace w2
      = (trace w' ++ [EvRequest (delete_request (del_customObjectKey p) id)]
           ++ opt_call (del_onSuccessFn p) []
           ++ [EvInvalidate [cache_tag (ToString (del_customObjectKey p))]]
           ++ opt_call (del_postActionFn p) [])%list
      /\ (reactContext w' <> None ->
          queryClientSet w' = true ->
          forall (params : HookParams) (t : N),
            hp_customObjectKey params = del_customObjectKey p ->
            is_given (hp_filterCriteria params) && is_given (hp_searchBySingleField params)
            = false ->
            fetching_enabled params = true ->
            trace (world_after (useQueryCustomObjects params) (at_time t w2))
            = (trace w2 ++ [EvRequest (search_request (hp_customObjectKey params)
                                         (hp_filterCriteria params)
                                         (hp_searchBySingleField params))])%list).
Proof.
  intros p w w1 h Hhook w' w2 id res Hexec.
  apply delete_hook_inv in Hhook as (-> & _ & K & ctx & _ & Eh).
  rewrite Eh in Hexec.
  apply delete_execute_success in Hexec as (_ & Htrace & Hcache & Hctx & Hq).
  split; [exact Htrace|].
  intros C Q params t Hkey Hexcl Hen.
  destruct (reactContext w') as [ctx'|] eqn:C'; [|now elim C].
  apply (query_hook_fetches params (at_time t w2) (ctx := ctx')); trivial.
  - cbn. now rewrite Hq.
  - now rewrite Hkey.
  - cbn [at_time queryCache]. rewrite Hcache, Hkey.
    destruct (find_entry
                (map (invalidate_entry [cache_tag (ToString (del_customObjectKey p))])
                   (queryCache w'))
                (query_key_of (del_customObjectKey p))) as [entry|] eqn:E; [|exact I].
    exact (find_entry_invalidated _ _ _ (cache_tag_matches_query_key _) E).
Qed.

(** Before the delete, the cached read is served and nothing is sent. *)
Example cached_read_is_served :
  world_after
    (useQueryCustomObjects (mkHookParams (JStr "users") Absent None true None Absent))
    (at_time 1000%N cached_users_world)
  = at_time 1000%N cached_users_world.
Proof. reflexivity. Qed.

Lemma C8_delete_success_order_witness :
  trace after_delete_world
  = [EvRequest (delete_request (JStr "users") (JStr "42"));
     EvCall "onSuccessFn" [];
     EvInvalidate ["query-custom-objects-users"];
     EvCall "postActionFn" []]
  /\ trace (world_after
              (useQueryCustomObjects (mkHookParams (JStr "users") Absent None true None Absent))
              (at_time 1000%N after_delete_world))
     = (trace after_delete_world
          ++ [EvRequest (search_request (JStr "users") Absent Absent)])%list.
Proof.
  destruct (@C8_delete_success_order
              (mkDeleteHookInput (JStr "users") (Some sample_postActionFn)
                                 (Some sample_onSuccessFn))
              sample_world sample_world
              {| execute :=
                   delete_execute sample_context
                     (mkDeleteHookInput (JStr "users") (Some sample_postActionFn)
                                        (Some sample_onSuccessFn)) |}
              eq_refl
              cached_users_world after_delete_world
              (JStr "42") (JObj [("deletedId", JStr "42")])
              eq_refl) as [Horder Hquery].
  split; [exact Horder|].
  refine (Hquery _ eq_refl (mkHookParams (JStr "users") Absent None true None Absent)
                 1000%N eq_refl eq_refl eq_refl).
  discriminate.
Defined.

(** C9.  When an execution of a constructed update hook resolves, the events
    after the PUT request are the call of the success callback with the
    updated identifier (if provided) and then the call of the post-success
    callback (if provided); none of them is a cache invalidation, and the
    query cache is left as it was. *)
Theorem C9_update_success_order :
  forall (p : UpdateHookInput) (w w1 : World)
         (h : MutationHookReturn UpdateVariables JsValue),
    useUpdateCustomObjects p w = (Returned h, w1) ->
    forall (w' w2 : World) (v : UpdateVariables) (res : JsValue),
      execute h v w' = (Returned res, w2) ->
      exists evs,
        trace w2 = (trace w' ++ evs)%list
        /\ evs = ([EvRequest (update_request (upd_customObjectKey p) v)]
                    ++ opt_call (upd_onSuccessFn p) [uv_id v]
                    ++ opt_call (upd_postActionFn p) [])%list
        /\ no_invalidation evs = true
        /\ queryCache w2 = queryCache w'.
Proof.
  intros p w w1 h Hhook w' w2 v res Hexec.
  apply update_hook_inv in Hhook as (-> & ctx & C & Eh).
  rewrite Eh in Hexec.
  apply update_execute_success in Hexec as (_ & Htrace & Hcache).
  eexists. split; [exact Htrace|]. split; [reflexivity|]. split; [|exact Hcache].
  destruct (upd_onSuccessFn p), (upd_postActionFn p); reflexivity.
Qed.

Lemma C9_update_success_order_witness :
  exists evs,
    trace (world_after
             (update_execute sample_context
                (mkUpdateHookInput (JStr "users") (Some sample_postActionFn)
                                   (Some sample_onSuccessFn))
                (mkUpdateVariables JUndefined (JObj [("gender", JStr "M")]) (JStr "42")))
             cached_users_world)
    = evs
    /\ evs = [EvRequest (update_request (JStr "users")
                           (mkUpdateVariables JUndefined (JObj [("gender", JStr "M")])
                                              (JStr "42")));
              EvCall "onSuccessFn" [JStr "42"];
              EvCall "postActionFn" []]
    /\ no_invalidation evs = true
    /\ queryCache
         (world_after
            (update_execute sample_context
               (mkUpdateHookInput (JStr "users") (Some sample_postActionFn)
                                  (Some sample_onSuccessFn))
               (mkUpdateVariables JUndefined (JObj [("gender", JStr "M")]) (JStr "42")))
            cached_users_world)
       = queryCache cached_users_world.
Proof.
  exact (@C9_update_success_order
           (mkUpdateHookInput (JStr "users") (Some sample_postActionFn)
                              (Some sample_onSuccessFn))
           sample_world sample_world
           {| execute :=
                update_execute sample_context
                  (mkUpdateHookInput (JStr "users") (Some sample_postActionFn)
                                     (Some sample_onSuccessFn)) |}
           eq_refl
           cached_users_world
           (world_after
              (update_execute sample_context
                 (mkUpdateHookInput (JStr "users") (Some sample_postActionFn)
                                    (Some sample_onSuccessFn))
                 (mkUpdateVariables JUndefined (JObj [("gender", JStr "M")]) (JStr "42")))
              cached_users_world)
           (mkUpdateVariables JUndefined (JObj [("gender", JStr "M")]) (JStr "42"))
           (JObj [("id", JStr "42")])
           eq_refl).
Defined.

(** C10.  [createNetworkClient] never reads the [zaf] field of its options:
    options that differ only there give the same client.  Under a provider
    the client's [fire] is the request over the provider's transport handle,
    whatever the options carried, and so is the [execute] of the delete
    hook, which passes the whole context object in that field. *)
Theorem C10_options_zaf_is_never_read :
  (forall (z1 z2 : AnyZaf) (key : string) (timeout : option float),
      createNetworkClient (mkConnector z1 key timeout)
      = createNetworkClient (mkConnector z2 key timeout))
  /\ (forall (z : AnyZaf) (key : string) (timeout : option float)
             (w : World) (ctx : ContextProps),
        reactContext w = Some ctx ->
        exists client,
          createNetworkClient (mkConnector z key timeout) w = (Returned client, w)
          /\ forall payload w',
               fire client payload w' = fire_with (zaf ctx) key timeout payload w'
               /\ trace (world_after (fire client payload) w')
                  = (trace w' ++ [EvRequest (fire_request key timeout payload)])%list
               /\ settles_as (request (zaf ctx) (fire_request key timeout payload))
                             (outcome_of (fire client payload) w'))
  /\ (forall (p : DeleteHookInput) (w w1 : World) (h : MutationHookReturn JsValue JsValue),
        useDeleteCustomObjects p w = (Returned h, w1) ->
        exists ctx, reactContext w = Some ctx /\ execute h = delete_execute ctx p).
Proof.
  split; [reflexivity|]. split.
  - intros z key timeout w ctx C.
    exists (mkClient (fire_with (zaf ctx) key timeout)).
    split; [exact (createNetworkClient_run (mkConnector z key timeout) w C)|].
    intros payload w'. cbn [fire]. split; [reflexivity|].
    unfold world_after, outcome_of.
    destruct (fire_with_eq (zaf ctx) key timeout payload w') as (o & -> & Ho).
    split; [reflexivity | exact Ho].
  - intros p w w1 h H. apply delete_hook_inv in H as (_ & _ & _ & ctx & C & Eh).
    now exists ctx.
Qed.

Lemma C10_options_zaf_witness :
  exists client,
    createNetworkClient (mkConnector (ZafContextObject sample_context) "users" None)
                        sample_world
    = (Returned client, sample_world)
    /\ trace (world_after
                (fire client (mkPayload JNull "/records/{id}" (Some [("id", JStr "42")])
                                        None DELETE))
                sample_world)
       = [EvRequest (delete_request (JStr "users") (JStr "42"))].
Proof.
  destruct C10_options_zaf_is_never_read as (_ & Hfire & _).
  destruct (Hfire (ZafContextObject sample_context) "users" None sample_world
                  sample_context eq_refl) as (client & Hrun & Hp).
  exists client. split; [exact Hrun|].
  exact (proj1 (proj2 (Hp (mkPayload JNull "/records/{id}" (Some [("id", JStr "42")])
                                     None DELETE) sample_world))).
Defined.

(* ===================================================================== *)
(** ** Further properties: templating and URLs *)
(* ===================================================================== *)

Lemma free_of_append (c : ascii) (a b : string) :
  free_of c (a ++ b) = free_of c a && free_of c b.
Proof.
  induction a as [|d a IH]; cbn; [reflexivity|].
  rewrite IH. now rewrite andb_assoc.
Qed.

Lemma occurs_at_within (s pat : string) (i : nat) :
  occurs_at s (String "{" pat) i -> i < String.length s.
Proof.
  intros (a & b & -> & <-). rewrite length_append. cbn. lia.
Qed.

(** A pattern that starts with a character cannot start inside a prefix
    that is free of that character. *)
Lemma no_occurrence_in_free_prefix (c : ascii) (pre rest pat : string) (i : nat) :
  free_of c pre = true ->
  i < String.length pre ->
  ~ occurs_at (pre ++ rest) (String c pat) i.
Proof.
  revert i; induction pre as [|d pre IH]; intros i Hfree Hi; cbn in Hi; [lia|].
  cbn in Hfree. apply andb_true_iff in Hfree as [Hd Hfree].
  destruct i as [|i]; cbn [append].
  - intros H. apply occurs_at_0 in H. cbn in H.
    destruct (ascii_dec c d) as [->|_]; [|discriminate].
    now rewrite Ascii.eqb_refl in Hd.
  - intros H. apply occurs_at_S in H. apply (IH i Hfree); [lia | exact H].
Qed.

Lemma no_placeholder_without_brace (s k : string) (i : nat) :
  free_of "{" s = true -> ~ occurs_at s (placeholder k) i.
Proof.
  intros Hfree H. change (placeholder k) with (String "{" (k ++ "}")) in H.
  pose proof (occurs_at_within H) as Hi.
  rewrite <- (append_nil_r s) in H.
  exact (@no_occurrence_in_free_prefix "{" s EmptyString (k ++ "}") i Hfree Hi H).
Qed.

(** Templating a path that holds no opening brace changes nothing, whatever
    the values. *)
Theorem convertPathParams_without_brace :
  forall (path : string) (params : Params),
    free_of "{" path = true -> convertPathParams path params = path.
Proof.
  intros path params Hfree. apply convertPathParams_absent.
  intros k v _ i. now apply no_placeholder_without_brace.
Qed.

Lemma convertPathParams_without_brace_witness :
  convertPathParams "/api/v2/custom_objects/users/records"
    [("customObjectKey", JStr "users"); ("id", JNum 7)]
  = "/api/v2/custom_objects/users/records".
Proof. apply convertPathParams_without_brace. reflexivity. Defined.

(** One placeholder at the end of a brace-free prefix. *)
Lemma convertPathParams_single (pre post k : string) (v : JsValue) :
  free_of "{" pre = true ->
  free_of "$" (ToString v) = true ->
  convertPathParams (pre ++ placeholder k ++ post) [(k, v)] = pre ++ ToString v ++ post.
Proof.
  intros Hpre Hv. unfold convertPathParams. cbn [fold_left fst snd].
  rewrite replace_first_occurrence.
  - now rewrite GetSubstitution_literal.
  - intros i Hi. change (placeholder k) with (String "{" (k ++ "}")).
    now apply no_occurrence_in_free_prefix.
Qed.

Lemma valid_string (k : JsValue) :
  not_a_nonempty_string k = false -> exists s, k = JStr s /\ s <> EmptyString.
Proof.
  unfold not_a_nonempty_string. intros H. apply orb_false_iff in H as [Ht Hs].
  destruct k; cbn in Hs; try discriminate. exists s. split; [reflexivity|].
  intros ->. discriminate.
Qed.

(** For every resource key without [{] and [$], the search request of the
    query hook goes to the path that holds the key twice. *)
Theorem search_url_for_any_key :
  forall (s : string) (fc : Optional (list (string * JsValue)))
         (sb : Optional SingleFieldSearch),
    free_of "{" s = true ->
    free_of "$" s = true ->
    req_url (search_request (JStr s) fc sb)
    = "/api/v2/custom_objects/" ++ s ++ "/" ++ s ++ "/records/search".
Proof.
  intros s fc sb Hb Hd. unfold search_request, fire_request, fire_url.
  cbn [req_url fp_endpoint fp_pathParams fp_params search_payload ToString].
  change (baseEndpoint ++ s ++ "/{customObjectKey}/records/search")
    with (baseEndpoint ++ s ++ "/" ++ placeholder "customObjectKey" ++ "/records/search").
  rewrite <- (append_assoc s "/"), <- (append_assoc baseEndpoint).
  rewrite convertPathParams_single.
  - cbn [ToString]. now rewrite !append_assoc.
  - rewrite !free_of_append, Hb. reflexivity.
  - exact Hd.
Qed.

Lemma search_url_for_any_key_witness :
  req_url (search_request (JStr "orders") Absent Absent)
  = "/api/v2/custom_objects/orders/orders/records/search".
Proof. apply (@search_url_for_any_key "orders" Absent Absent); reflexivity. Defined.

(** For every resource key without [{] and every record id without [$],
    insert posts to the records path of the resource, and update and delete
    address the record under it; delete sends no body. *)
Theorem mutation_urls :
  forall (s : string),
    free_of "{" s = true ->
    (forall input,
        req_url (insert_request (JStr s) input) = "/api/v2/custom_objects/" ++ s ++ "/records"
        /\ req_type (insert_request (JStr s) input) = POST)
    /\ (forall name cof id,
          free_of "$" id = true ->
          req_url (update_request (JStr s) (mkUpdateVariables name cof (JStr id)))
          = "/api/v2/custom_objects/" ++ s ++ "/records/" ++ id
          /\ req_type (update_request (JStr s) (mkUpdateVariables name cof (JStr id))) = PUT)
    /\ (forall id,
          free_of "$" id = true ->
          req_url (delete_request (JStr s) (JStr id))
          = "/api/v2/custom_objects/" ++ s ++ "/records/" ++ id
          /\ req_type (delete_request (JStr s) (JStr id)) = DELETE
          /\ req_data (delete_request (JStr s) (JStr id)) = None).
Proof.
  intros s Hb.
  assert (Hrec : forall id, free_of "$" id = true ->
            convertPathParams (baseEndpoint ++ s ++ "/records/{id}") [("id", JStr id)]
            = "/api/v2/custom_objects/" ++ s ++ "/records/" ++ id).
  { intros id Hid.
    change (baseEndpoint ++ s ++ "/records/{id}")
      with (baseEndpoint ++ s ++ "/records/" ++ placeholder "id" ++ EmptyString).
    rewrite <- (append_assoc s "/records/"), <- (append_assoc baseEndpoint).
    rewrite convertPathParams_single.
    - cbn [ToString]. now rewrite append_nil_r, !append_assoc.
    - rewrite !free_of_append, Hb. reflexivity.
    - exact Hid. }
  split; [|split].
  - intros input. split; [|reflexivity].
    unfold insert_request, fire_request, fire_url.
    cbn [req_url fp_endpoint fp_pathParams fp_params ToString].
    apply convertPathParams_without_brace.
    rewrite !free_of_append, Hb. reflexivity.
  - intros name cof id Hid. split; [|reflexivity].
    unfold update_request, fire_request, fire_url.
    cbn [req_url fp_endpoint fp_pathParams fp_params ToString uv_id].
    now apply Hrec.
  - intros id Hid. split; [|split; reflexivity].
    unfold delete_request, fire_request, fire_url.
    cbn [req_url fp_endpoint fp_pathParams fp_params ToString].
    now apply Hrec.
Qed.

Lemma mutation_urls_witness :
  req_url (delete_request (JStr "orders") (JStr "abc-1"))
  = "/api/v2/custom_objects/orders/records/abc-1".
Proof.
  destruct (@mutation_urls "orders" eq_refl) as (_ & _ & Hdel).
  exact (proj1 (Hdel "abc-1" eq_refl)).
Defined.

(* ===================================================================== *)
(** ** Further properties: the transport adapter and the provider *)
(* ===================================================================== *)

Lemma fire_catch_message (A : Type) (reason : JsValue) (w : World) :
  reason <> JUndefined -> reason <> JNull ->
  @fire_catch A reason w = (Thrown (Error (ToString reason)), w).
Proof.
  intros Hu Hn. unfold fire_catch.
  destruct reason; try (now elim Hu); try (now elim Hn); try reflexivity.
  now destruct (negb (truthy (get_prop props "status"))).
Qed.

(** When the transport rejects with a reason other than [undefined] and
    [null], [fire] throws an [Error] whose message is the string form of the
    reason, on both branches of the status test: a reason with a status and
    a reason without one are wrapped alike, after the one request was handed
    over. *)
Theorem fire_rejection_is_flattened :
  forall (client : ZafClient) (key : string) (timeout : option float)
         (payload : FirePayload) (w : World) (reason : JsValue),
    request client (fire_request key timeout payload) = Rejected reason ->
    reason <> JUndefined ->
    reason <> JNull ->
    fire_with client key timeout payload w
    = (Thrown (Error (ToString reason)),
       record_event (EvRequest (fire_request key timeout payload)) w).
Proof.
  intros client key timeout payload w reason Hr Hu Hn.
  unfold fire_with, bind, zaf_request, emit, ret. cbn. rewrite Hr.
  now apply fire_catch_message.
Qed.

Lemma fire_rejection_is_flattened_witness :
  fire_with (rejecting_client (JStr "offline")) "users" None
    (mkPayload JNull "/records/{id}" (Some [("id", JStr "42")]) None DELETE) sample_world
  = (Thrown (Error "offline"),
     record_event (EvRequest (delete_request (JStr "users") (JStr "42"))) sample_world).
Proof.
  apply (@fire_rejection_is_flattened
           (rejecting_client (JStr "offline")) "users" None
           (mkPayload JNull "/records/{id}" (Some [("id", JStr "42")]) None DELETE)
           sample_world (JStr "offline") eq_refl); discriminate.
Defined.

(** When the transport rejects with [undefined] or [null], reading [status]
    in the catch block fails: [fire] throws a [TypeError], not the wrapped
    [Error]. *)
Theorem fire_rejection_without_reason :
  forall (client : ZafClient) (key : string) (timeout : option float)
         (payload : FirePayload) (w : World) (reason : JsValue),
    request client (fire_request key timeout payload) = Rejected reason ->
    reason = JUndefined \/ reason = JNull ->
    exists message,
      fire_with client key timeout payload w
      = (Thrown (TypeError message),
         record_event (EvRequest (fire_request key timeout payload)) w).
Proof.
  intros client key timeout payload w reason Hr [-> | ->];
    unfold fire_with, bind, zaf_request, emit, ret; cbn; rewrite Hr;
    eexists; reflexivity.
Qed.

Lemma fire_rejection_without_reason_witness :
  exists message,
    fire_with (rejecting_client JUndefined) "users" None
      (mkPayload JNull "/records/{id}" (Some [("id", JStr "42")]) None DELETE) sample_world
    = (Thrown (TypeError message),
       record_event (EvRequest (delete_request (JStr "users") (JStr "42"))) sample_world).
Proof.
  exact (@fire_rejection_without_reason (rejecting_client JUndefined) "users" None
           (mkPayload JNull "/records/{id}" (Some [("id", JStr "42")]) None DELETE)
           sample_world JUndefined eq_refl (or_introl eq_refl)).
Defined.

(** Outside a provider, with a QueryClient set and a valid key, each of the
    four hooks throws the provider error at construction and touches
    nothing. *)
Theorem hooks_outside_provider :
  forall (k : JsValue) (w : World),
    reactContext w = None ->
    queryClientSet w = true ->
    not_a_nonempty_string k = false ->
    (forall fc tf r rqo sb,
        useQueryCustomObjects (mkHookParams k fc tf r rqo sb) w
        = (Thrown provider_missing, w))
    /\ (forall post,
          usePostCustomObjects (mkPostHookInput k post) w = (Thrown provider_missing, w))
    /\ (forall post ok,
          useUpdateCustomObjects (mkUpdateHookInput k post ok) w
          = (Thrown provider_missing, w))
    /\ (forall post ok,
          useDeleteCustomObjects (mkDeleteHookInput k post ok) w
          = (Thrown provider_missing, w)).
Proof.
  intros k w C Q K. repeat split; intros.
  - unfold useQueryCustomObjects. cbn [hp_customObjectKey]. rewrite K.
    exact (bind_thrown_left _ (useInternalZafClient_missing w C)).
  - unfold usePostCustomObjects. cbn [post_customObjectKey].
    rewrite (bind_returned_left _ (useQueryClient_run w Q)), K.
    exact (bind_thrown_left _ (useInternalZafClient_missing w C)).
  - unfold useUpdateCustomObjects. cbn [upd_customObjectKey]. rewrite K.
    exact (bind_thrown_left _ (useInternalZafClient_missing w C)).
  - unfold useDeleteCustomObjects. cbn [del_customObjectKey].
    rewrite (bind_returned_left _ (useQueryClient_run w Q)), K.
    exact (bind_thrown_left _ (useInternalZafClient_missing w C)).
Qed.

Lemma hooks_outside_provider_witness :
  useDeleteCustomObjects (mkDeleteHookInput (JStr "users") None None)
                         (with_reactContext None sample_world)
  = (Thrown provider_missing, with_reactContext None sample_world).
Proof.
  apply (@hooks_outside_provider (JStr "users") (with_reactContext None sample_world)
           eq_refl eq_refl eq_refl).
Defined.

Lemma with_reactContext_record_event (c : option ContextProps) (e : Event) (w : World) :
  with_reactContext c (record_event e w) = record_event e (with_reactContext c w).
Proof. reflexivity. Qed.

(** The client handed to [CustomObjectsProvider] is the one a hook below it
    sends through: a [fire] issued in the subtree hands its request to that
    client, settles as that client settles it, and leaves the enclosing
    context value in place, whatever it was. *)
Theorem provider_supplies_the_transport :
  forall (client : ZafClient) (options : NetworkConnector) (payload : FirePayload)
         (w : World),
  exists o,
    CustomObjectsProvider client
      (c <- createNetworkClient options ;; fire c payload) w
    = (o, record_event
            (EvRequest (fire_request (nc_customObjectKey options) (nc_timeout options) payload))
            w)
    /\ settles_as
         (request client
            (fire_request (nc_customObjectKey options) (nc_timeout options) payload))
         o.
Proof.
  intros client options payload w. unfold CustomObjectsProvider.
  rewrite (bind_returned_left _
             (createNetworkClient_run options
                (with_reactContext (Some {| zaf := client |}) w) (ctx := {| zaf := client |})
                eq_refl)).
  cbn [fire zaf].
  destruct (fire_with_eq client (nc_customObjectKey options) (nc_timeout options) payload
              (with_reactContext (Some {| zaf := client |}) w)) as (o & -> & Ho).
  exists o. split; [|exact Ho].
  destruct w; reflexivity.
Qed.

(* ===================================================================== *)
(** ** Further properties: the query hook *)
(* ===================================================================== *)

Lemma hashKey_eqb_refl (k : QueryKey) : hashKey_eqb k k = true.
Proof. induction k as [|x k IH]; cbn; [reflexivity | now rewrite String.eqb_refl]. Qed.

Lemma find_entry_store_same (cache : list (QueryKey * CacheEntry)) (k : QueryKey)
      (e : CacheEntry) :
  find_entry (store_entry cache k e) k = Some e.
Proof.
  induction cache as [|[k' e'] rest IH]; cbn.
  - now rewrite hashKey_eqb_refl.
  - destruct (hashKey_eqb k' k) eqn:E; cbn.
    + now rewrite hashKey_eqb_refl.
    + now rewrite E.
Qed.

Lemma fetch_query_resolved (k : QueryKey) (client : ZafClient) (key : string)
      (timeout : option float) (payload : FirePayload) (w : World) (v : JsValue) :
  request client (fire_request key timeout payload) = Resolved v ->
  v <> JUndefined ->
  fetch_query k (fire_with client key timeout payload) w
  = (Returned (v, None),
     with_queryCache (store_entry (queryCache w) k (mkEntry v (now w) false))
                     (record_event (EvRequest (fire_request key timeout payload)) w)).
Proof.
  intros Hr Hv. unfold fetch_query, try_catch.
  rewrite (bind_returned_left _ (fire_with_resolved client key timeout payload w Hr)).
  destruct v; try reflexivity. now elim Hv.
Qed.

(** A search that resolves with [undefined] is a failed fetch: the error is
    reported and nothing is cached. *)
Lemma fetch_query_undefined (k : QueryKey) (client : ZafClient) (key : string)
      (timeout : option float) (payload : FirePayload) (w : World) :
  request client (fire_request key timeout payload) = Resolved JUndefined ->
  fetch_query k (fire_with client key timeout payload) w
  = (Returned (match find_entry (queryCache w) k with
               | Some entry => ce_data entry
               | None => JUndefined
               end, Some (Error (hashKey k ++ " data is undefined"))),
     record_event (EvRequest (fire_request key timeout payload)) w).
Proof.
  intros Hr. unfold fetch_query, try_catch.
  rewrite (bind_returned_left _ (fire_with_resolved client key timeout payload w Hr)).
  reflexivity.
Qed.


Lemma get_world_run (w : World) : get_world w = (Returned w, w).
Proof. reflexivity. Qed.

(** The query hook where [useQuery] has to fetch, as a computation. *)
Lemma useQuery_fetch_eq (options : UseQueryOptions) (w : World) :
  queryClientSet w = true ->
  enabled options = true ->
  match find_entry (queryCache w) (queryKey options) with
  | Some entry => is_fresh entry (staleTime options) (now w) = false
  | None => True
  end ->
  useQuery options w
  = (r <- fetch_query (queryKey options) (queryFn options) ;;
     ret (mkUseQueryResult (fst r) (snd r)
            (fetch_query (queryKey options) (queryFn options) ;; ret tt))) w.
Proof.
  intros Hq Hen Hstale. unfold useQuery.
  rewrite (bind_returned_left _ (useQueryClient_run w Hq)).
  rewrite (bind_returned_left _ (get_world_run w)).
  rewrite Hen. cbn [negb orb].
  destruct (find_entry (queryCache w) (queryKey options)) as [entry|]; [|reflexivity].
  now rewrite Hstale.
Qed.

Lemma query_options_enabled (key : string) (fn : M JsValue) (refetch : bool)
      (params : HookParams) :
  enabled (query_options key fn refetch (hp_reactQueryOptions params))
  = fetching_enabled params.
Proof.
  unfold fetching_enabled, query_options. cbn.
  destruct (hp_reactQueryOptions params) as [o|]; [|reflexivity].
  now destruct (rq_enabled o).
Qed.


(** When the search resolves with a response other than [undefined], the
    query hook returns the translated response (the translator is not
    called on a falsy response, which gives the empty array; without a
    translator the raw response comes back), no error, and the response is
    cached under the resource's query key at the current time. *)
Theorem query_resolved :
  forall (params : HookParams) (w : World) (ctx : ContextProps) (v : JsValue),
    reactContext w = Some ctx ->
    queryClientSet w = true ->
    not_a_nonempty_string (hp_customObjectKey params) = false ->
    is_given (hp_filterCriteria params) && is_given (hp_searchBySingleField params) = false ->
    fetching_enabled params = true ->
    find_entry (queryCache w) (query_key_of (hp_customObjectKey params)) = None ->
    request (zaf ctx)
            (search_request (hp_customObjectKey params) (hp_filterCriteria params)
                            (hp_searchBySingleField params))
    = Resolved v ->
    v <> JUndefined ->
    exists r,
      useQueryCustomObjects params w
      = (Returned r,
         with_queryCache
           (store_entry (queryCache w) (query_key_of (hp_customObjectKey params))
                        (mkEntry v (now w) false))
           (record_event
              (EvRequest (search_request (hp_customObjectKey params)
                            (hp_filterCriteria params) (hp_searchBySingleField params)))
              w))
      /\ hr_data r = transformed (hp_translateFn params) v
      /\ hr_error r = None.
Proof.
  intros params w ctx v C Q K Hexcl Hen Hnone Hr Hv.
  rewrite (query_hook_reaches_useQuery params w C K Hexcl).
  unfold bind at 1. rewrite useQuery_fetch_eq.
  - cbn [queryKey queryFn query_options].
    change [cache_tag (ToString (hp_customObjectKey params));
            ToString (hp_customObjectKey params)]
      with (query_key_of (hp_customObjectKey params)).
    rewrite (bind_returned_left _
               (fetch_query_resolved (query_key_of (hp_customObjectKey params))
                  (zaf ctx) (ToString (hp_customObjectKey params)) None
                  (search_payload (hp_customObjectKey params)
                     (criteria_of (hp_filterCriteria params) (hp_searchBySingleField params)))
                  w Hr Hv)).
    cbn. eexists. split; [reflexivity|]. split; reflexivity.
  - exact Q.
  - now rewrite query_options_enabled.
  - change (queryKey (query_options (ToString (hp_customObjectKey params)) _ _ _))
      with (query_key_of (hp_customObjectKey params)).
    now rewrite Hnone.
Qed.

Lemma query_resolved_witness :
  exists r,
    outcome_of
      (useQueryCustomObjects
         (mkHookParams (JStr "users") Absent (Some (fun raw => JArr [raw])) true None Absent))
      sample_world
    = Returned r
    /\ hr_data r = JArr [JArr [JObj [("id", JStr "1")]]].
Proof.
  destruct (@query_resolved
              (mkHookParams (JStr "users") Absent (Some (fun raw => JArr [raw])) true None Absent)
              sample_world sample_context (JArr [JObj [("id", JStr "1")]])
              eq_refl eq_refl eq_refl eq_refl eq_refl eq_refl eq_refl
              ltac:(discriminate))
    as (r & Hrun & Hdata & _).
  exists r. split; [|exact Hdata].
  unfold outcome_of. now rewrite Hrun.
Defined.



Lemma snd_bind_ret (A B : Type) (m : M A) (f : A -> B) (w : World) :
  snd ((x <- m ;; ret (f x)) w) = snd (m w).
Proof. unfold bind, ret. now destruct (m w) as [[a|e] w']. Qed.




(** Without a cached read the query hook leaves the world of its one
    search: the response is cached, unless it is [undefined] or the search
    was rejected. *)
Lemma query_hook_fetch_world (params : HookParams) (w : World) (ctx : ContextProps) :
  reactContext w = Some ctx ->
  queryClientSet w = true ->
  not_a_nonempty_string (hp_customObjectKey params) = false ->
  is_given (hp_filterCriteria params) && is_given (hp_searchBySingleField params) = false ->
  fetching_enabled params = true ->
  find_entry (queryCache w) (query_key_of (hp_customObjectKey params)) = None ->
  world_after (useQueryCustomObjects params) w
  = match request (zaf ctx)
            (search_request (hp_customObjectKey params) (hp_filterCriteria params)
                            (hp_searchBySingleField params)) with
    | Resolved JUndefined =>
        record_event
          (EvRequest (search_request (hp_customObjectKey params) (hp_filterCriteria params)
                                     (hp_searchBySingleField params))) w
    | Resolved response =>
        with_queryCache
          (store_entry (queryCache w) (query_key_of (hp_customObjectKey params))
                       (mkEntry response (now w) false))
          (record_event
             (EvRequest (search_request (hp_customObjectKey params) (hp_filterCriteria params)
                                        (hp_searchBySingleField params))) w)
    | Rejected _ =>
        record_event
          (EvRequest (search_request (hp_customObjectKey params) (hp_filterCriteria params)
                                     (hp_searchBySingleField params))) w
    end.
Proof.
  intros C Q K Hexcl Hen Hnone. unfold world_after.
  rewrite (query_hook_reaches_useQuery params w C K Hexcl).
  rewrite snd_bind_ret. rewrite useQuery_fetch_eq.
  - rewrite snd_bind_ret. cbn [queryKey queryFn query_options].
    change [cache_tag (ToString (hp_customObjectKey params));
            ToString (hp_customObjectKey params)]
      with (query_key_of (hp_customObjectKey params)).
    destruct (fetch_query_world (query_key_of (hp_customObjectKey params))
                (zaf ctx) (ToString (hp_customObjectKey params)) None
                (search_payload (hp_customObjectKey params)
                   (criteria_of (hp_filterCriteria params) (hp_searchBySingleField params)))
                w) as [res ->].
    reflexivity.
  - exact Q.
  - now rewrite query_options_enabled.
  - change (queryKey (query_options (ToString (hp_customObjectKey params)) _ _ _))
      with (query_key_of (hp_customObjectKey params)).
    now rewrite Hnone.
Qed.

(** With the default options a query whose cached read is missing or no
    longer fresh sends its search. *)
Lemma query_hook_fetches_stale (params : HookParams) (w : World) (ctx : ContextProps) :
  reactContext w = Some ctx ->
  queryClientSet w = true ->
  not_a_nonempty_string (hp_customObjectKey params) = false ->
  is_given (hp_filterCriteria params) && is_given (hp_searchBySingleField params) = false ->
  hp_reactQueryOptions params = None ->
  match find_entry (queryCache w) (query_key_of (hp_customObjectKey params)) with
  | Some entry => is_fresh entry 60000 (now w) = false
  | None => True
  end ->
  trace (world_after (useQueryCustomObjects params) w)
  = (trace w ++ [EvRequest (search_request (hp_customObjectKey params)
                              (hp_filterCriteria params)
                              (hp_searchBySingleField params))])%list.
Proof.
  intros C Q K Hexcl Hrq Hstale. unfold world_after.
  rewrite (query_hook_reaches_useQuery params w C K Hexcl).
  rewrite snd_bind_ret.
  match goal with
  | |- trace (snd (useQuery ?o ?w0)) = _ =>
      pose proof (@useQuery_fetches o (zaf ctx) (ToString (hp_customObjectKey params)) None
                    (search_payload (hp_customObjectKey params)
                       (criteria_of (hp_filterCriteria params)
                          (hp_searchBySingleField params))) w0) as T
  end.
  unfold world_after in T. rewrite T; clear T.
  - reflexivity.
  - exact Q.
  - now rewrite Hrq.
  - reflexivity.
  - rewrite Hrq.
    change (queryKey (query_options (ToString (hp_customObjectKey params)) _ _ _))
      with (query_key_of (hp_customObjectKey params)).
    exact Hstale.
Qed.

(** One minute after a resolved search the cached read is stale: a query
    hook for the resource key sends its search again. *)
Theorem cached_read_is_stale_after_a_minute :
  forall (first second : HookParams) (w : World) (ctx : ContextProps)
         (v : JsValue) (t : N),
    reactContext w = Some ctx ->
    queryClientSet w = true ->
    not_a_nonempty_string (hp_customObjectKey first) = false ->
    hp_customObjectKey second = hp_customObjectKey first ->
    is_given (hp_filterCriteria first) && is_given (hp_searchBySingleField first) = false ->
    is_given (hp_filterCriteria second) && is_given (hp_searchBySingleField second) = false ->
    fetching_enabled first = true ->
    hp_reactQueryOptions second = None ->
    find_entry (queryCache w) (query_key_of (hp_customObjectKey first)) = None ->
    request (zaf ctx)
            (search_request (hp_customObjectKey first) (hp_filterCriteria first)
                            (hp_searchBySingleField first))
    = Resolved v ->
    (now w + 60000 <= t)%N ->
    trace (world_after (useQueryCustomObjects second)
             (at_time t (world_after (useQueryCustomObjects first) w)))
    = (trace w
         ++ [EvRequest (search_request (hp_customObjectKey first) (hp_filterCriteria first)
                          (hp_searchBySingleField first));
             EvRequest (search_request (hp_customObjectKey second) (hp_filterCriteria second)
                          (hp_searchBySingleField second))])%list.
Proof.
  intros first second w ctx v t C Q K1 Hsame Hexcl1 Hexcl2 Hen Hrq Hnone Hr Ht.
  assert (K2 : not_a_nonempty_string (hp_customObjectKey second) = false)
    by (now rewrite Hsame).
  pose proof (query_hook_fetch_world first w C Q K1 Hexcl1 Hen Hnone) as Hw.
  rewrite Hr in Hw.
  assert (Hfacts :
            reactContext (world_after (useQueryCustomObjects first) w) = Some ctx
            /\ queryClientSet (world_after (useQueryCustomObjects first) w) = true
            /\ trace (world_after (useQueryCustomObjects first) w)
               = (trace w ++ [EvRequest (search_request (hp_customObjectKey first)
                                           (hp_filterCriteria first)
                                           (hp_searchBySingleField first))])%list
            /\ match find_entry (queryCache (world_after (useQueryCustomObjects first) w))
                                (query_key_of (hp_customObjectKey first)) with
               | Some entry => is_fresh entry 60000 t = false
               | None => True
               end).
  { rewrite Hw. destruct v; cbn [reactContext queryClientSet trace queryCache
                                   with_queryCache record_event];
      repeat (split; [first [exact C | exact Q | reflexivity]|]);
      rewrite ?Hnone, ?find_entry_store_same; try exact I;
      unfold is_fresh; cbn [ce_isInvalidated ce_updatedAt negb andb];
      apply N.ltb_ge; exact Ht. }
  destruct Hfacts as (C1 & Q1 & T1 & F1).
  rewrite (query_hook_fetches_stale second
             (at_time t (world_after (useQueryCustomObjects first) w)) (ctx := ctx)
             C1 Q1 K2 Hexcl2 Hrq).
  - cbn [at_time trace]. rewrite T1. now rewrite <- app_assoc.
  - rewrite Hsame. exact F1.
Qed.

Lemma cached_read_is_stale_after_a_minute_witness :
  trace (world_after
           (useQueryCustomObjects (mkHookParams (JStr "users") Absent None true None Absent))
           (at_time 60000%N
              (world_after
                 (useQueryCustomObjects
                    (mkHookParams (JStr "users") Absent None true None Absent))
                 sample_world)))
  = [EvRequest (search_request (JStr "users") Absent Absent);
     EvRequest (search_request (JStr "users") Absent Absent)].
Proof.
  exact (@cached_read_is_stale_after_a_minute
           (mkHookParams (JStr "users") Absent None true None Absent)
           (mkHookParams (JStr "users") Absent None true None Absent)
           sample_world sample_context (JArr [JObj [("id", JStr "1")]]) 60000%N
           eq_refl eq_refl eq_refl eq_refl eq_refl eq_refl eq_refl eq_refl eq_refl eq_refl
           ltac:(cbn; discriminate)).
Defined.

(** The caller's options are spread last: with [enabled: false] among them
    the query hook never sends its search; it returns what the cache holds,
    or no data, and no error. *)
Theorem disabled_query_sends_nothing :
  forall (params : HookParams) (w : World) (ctx : ContextProps),
    reactContext w = Some ctx ->
    queryClientSet w = true ->
    not_a_nonempty_string (hp_customObjectKey params) = false ->
    is_given (hp_filterCriteria params) && is_given (hp_searchBySingleField params) = false ->
    fetching_enabled params = false ->
    exists r,
      useQueryCustomObjects params w = (Returned r, w)
      /\ hr_error r = None
      /\ hr_data r
         = transformed (hp_translateFn params)
             (match find_entry (queryCache w) (query_key_of (hp_customObjectKey params)) with
              | Some entry => ce_data entry
              | None => JUndefined
              end).
Proof.
  intros params w ctx C Q K Hexcl Hen.
  rewrite (query_hook_reaches_useQuery params w C K Hexcl).
  unfold bind at 1, useQuery.
  rewrite (bind_returned_left _ (useQueryClient_run w Q)).
  rewrite (bind_returned_left _ (get_world_run w)).
  rewrite query_options_enabled, Hen. cbn [negb orb].
  change (queryKey (query_options (ToString (hp_customObjectKey params)) _ _ _))
    with (query_key_of (hp_customObjectKey params)).
  destruct (find_entry (queryCache w) (query_key_of (hp_customObjectKey params)))
    as [entry|]; cbn; eexists; (split; [reflexivity|]); split; reflexivity.
Qed.

Lemma disabled_query_sends_nothing_witness :
  exists r,
    useQueryCustomObjects
      (mkHookParams (JStr "users") Absent None true
                    (Some (mkRQOptions None None (Some false))) Absent)
      sample_world
    = (Returned r, sample_world)
    /\ hr_data r = JUndefined.
Proof.
  destruct (@disabled_query_sends_nothing
              (mkHookParams (JStr "users") Absent None true
                            (Some (mkRQOptions None None (Some false))) Absent)
              sample_world sample_context eq_refl eq_refl eq_refl eq_refl eq_refl)
    as (r & Hrun & _ & Hdata).
  exists r. split; [exact Hrun | exact Hdata].
Defined.

(* ===================================================================== *)
(** ** Further properties: failures of the mutations *)
(* ===================================================================== *)

(** A mutation that rejects: its function or its [onSuccess] threw, then
    [onError] ran and either returned (the cause is rethrown) or threw
    itself (its error replaces the cause). *)
Lemma mutateAsync_thrown (V R : Type) (options : UseMutationOptions V R)
      (v : V) (e : JsError) (w w2 : World) :
  mutateAsync options v w = (Thrown e, w2) ->
  exists e0 w1,
    (mutationFn options v w = (Thrown e0, w1)
     \/ exists r w0, mutationFn options v w = (Returned r, w0)
                     /\ onSuccess options r w0 = (Thrown e0, w1))
    /\ ((onError options e0 w1 = (Returned tt, w2) /\ e = e0)
        \/ onError options e0 w1 = (Thrown e, w2)).
Proof.
  unfold mutateAsync, try_catch, bind, ret, throw.
  destruct (mutationFn options v w) as [[r|e0] w0] eqn:Efn.
  - destruct (onSuccess options r w0) as [[[]|e0] w1] eqn:Eok; [discriminate|].
    intros H. exists e0, w1. split; [right; now exists r, w0|].
    destruct (onError options e0 w1) as [[[]|e'] w'] eqn:Eerr; inversion H; subst; auto.
  - intros H. exists e0, w0. split; [now left|].
    destruct (onError options e0 w0) as [[[]|e'] w'] eqn:Eerr; inversion H; subst; auto.
Qed.

(** Whatever makes an update fail (the id check, a rejected request, a
    callback that throws), the caller gets the one fixed error naming the
    resource key: the cause is not passed on. *)
Theorem update_failure_hides_the_cause :
  forall (p : UpdateHookInput) (w w1 : World)
         (h : MutationHookReturn UpdateVariables JsValue),
    useUpdateCustomObjects p w = (Returned h, w1) ->
    forall (v : UpdateVariables) (w' w2 : World) (e : JsError),
      execute h v w' = (Thrown e, w2) ->
      e = update_failure (upd_customObjectKey p).
Proof.
  intros p w w1 h Hhook v w' w2 e Hexec.
  apply update_hook_inv in Hhook as (_ & ctx & _ & Eh). rewrite Eh in Hexec.
  unfold update_execute in Hexec.
  apply mutateAsync_thrown in Hexec as (e0 & w0 & _ & [[H _] | H]);
    cbn [onError] in H; unfold update_onError, throw in H; now inversion H.
Qed.

Lemma update_failure_hides_the_cause_witness :
  Error "Error updating custom object record with key users"
  = update_failure (JStr "users").
Proof.
  exact (@update_failure_hides_the_cause
           (mkUpdateHookInput (JStr "users") None None)
           (with_reactContext (Some (mkContext (rejecting_client (JObj [("status", JNum 500)]))))
                              sample_world)
           (with_reactContext (Some (mkContext (rejecting_client (JObj [("status", JNum 500)]))))
                              sample_world)
           {| execute := update_execute
                           (mkContext (rejecting_client (JObj [("status", JNum 500)])))
                           (mkUpdateHookInput (JStr "users") None None) |}
           eq_refl
           (mkUpdateVariables JUndefined (JObj []) (JStr "42"))
           sample_world
           (record_event
              (EvRequest (update_request (JStr "users")
                            (mkUpdateVariables JUndefined (JObj []) (JStr "42"))))
              sample_world)
           (Error "Error updating custom object record with key users")
           eq_refl).
Defined.

(** The same for delete: every failed execution rejects with the one fixed
    error naming the resource key. *)
Theorem delete_failure_hides_the_cause :
  forall (p : DeleteHookInput) (w w1 : World) (h : MutationHookReturn JsValue JsValue),
    useDeleteCustomObjects p w = (Returned h, w1) ->
    forall (id : JsValue) (w' w2 : World) (e : JsError),
      execute h id w' = (Thrown e, w2) ->
      e = delete_failure (del_customObjectKey p).
Proof.
  intros p w w1 h Hhook id w' w2 e Hexec.
  apply delete_hook_inv in Hhook as (_ & _ & _ & ctx & _ & Eh). rewrite Eh in Hexec.
  unfold delete_execute in Hexec.
  apply mutateAsync_thrown in Hexec as (e0 & w0 & _ & [[H _] | H]);
    cbn [onError] in H; unfold delete_onError, throw in H; now inversion H.
Qed.

Lemma delete_failure_hides_the_cause_witness :
  Error "Error deleting custom object record with key users"
  = delete_failure (JStr "users").
Proof.
  exact (@delete_failure_hides_the_cause
           (mkDeleteHookInput (JStr "users") None None)
           (with_reactContext (Some (mkContext (rejecting_client (JStr "timeout"))))
                              sample_world)
           (with_reactContext (Some (mkContext (rejecting_client (JStr "timeout"))))
                              sample_world)
           {| execute := delete_execute
                           (mkContext (rejecting_client (JStr "timeout")))
                           (mkDeleteHookInput (JStr "users") None None) |}
           eq_refl
           (JStr "42")
           sample_world
           (record_event (EvRequest (delete_request (JStr "users") (JStr "42"))) sample_world)
           (Error "Error deleting custom object record with key users")
           eq_refl).
Defined.

(** An update whose id is missing, empty or not a string fails at the id
    check even when the field mapping is valid: nothing is sent, no callback
    runs, and the world is as before. *)
Theorem update_without_id_sends_nothing :
  forall (p : UpdateHookInput) (w w1 : World)
         (h : MutationHookReturn UpdateVariables JsValue),
    useUpdateCustomObjects p w = (Returned h, w1) ->
    forall (v : UpdateVariables) (w' : World),
      not_a_nonempty_string (uv_id v) = true ->
      execute h v w' = (Thrown (update_failure (upd_customObjectKey p)), w').
Proof.
  intros p w w1 h Hhook v w' Hid.
  apply update_hook_inv in Hhook as (_ & ctx & _ & ->).
  unfold update_execute, mutateAsync, try_catch, bind.
  cbn [mutationFn onSuccess onError]. unfold update_mutationFn. cbn zeta.
  rewrite Hid. reflexivity.
Qed.

Lemma update_without_id_sends_nothing_witness :
  update_execute sample_context (mkUpdateHookInput (JStr "users") (Some sample_postActionFn)
                                                   (Some sample_onSuccessFn))
    (mkUpdateVariables (JStr "Ann") (JObj [("gender", JStr "F")]) (JNum 42)) sample_world
  = (Thrown (update_failure (JStr "users")), sample_world).
Proof.
  exact (@update_without_id_sends_nothing
           (mkUpdateHookInput (JStr "users") (Some sample_postActionFn)
                              (Some sample_onSuccessFn))
           sample_world sample_world
           {| execute := update_execute sample_context
                           (mkUpdateHookInput (JStr "users") (Some sample_postActionFn)
                                              (Some sample_onSuccessFn)) |}
           eq_refl
           (mkUpdateVariables (JStr "Ann") (JObj [("gender", JStr "F")]) (JNum 42))
           sample_world eq_refl).
Defined.

(** A delete whose id is missing, empty or not a string fails at the id
    check: nothing is sent, the cache is not invalidated, no callback
    runs. *)
Theorem delete_without_id_sends_nothing :
  forall (p : DeleteHookInput) (w w1 : World) (h : MutationHookReturn JsValue JsValue),
    useDeleteCustomObjects p w = (Returned h, w1) ->
    forall (id : JsValue) (w' : World),
      not_a_nonempty_string id = true ->
      execute h id w' = (Thrown (delete_failure (del_customObjectKey p)), w').
Proof.
  intros p w w1 h Hhook id w' Hid.
  apply delete_hook_inv in Hhook as (_ & _ & _ & ctx & _ & ->).
  unfold delete_execute, mutateAsync, try_catch, bind.
  cbn [mutationFn onSuccess onError]. unfold delete_mutationFn.
  rewrite Hid. reflexivity.
Qed.

Lemma delete_without_id_sends_nothing_witness :
  delete_execute sample_context (mkDeleteHookInput (JStr "users") (Some sample_postActionFn)
                                                   (Some sample_onSuccessFn))
    (JStr EmptyString) cached_users_world
  = (Thrown (delete_failure (JStr "users")), cached_users_world).
Proof.
  exact (@delete_without_id_sends_nothing
           (mkDeleteHookInput (JStr "users") (Some sample_postActionFn)
                              (Some sample_onSuccessFn))
           sample_world sample_world
           {| execute := delete_execute sample_context
                           (mkDeleteHookInput (JStr "users") (Some sample_postActionFn)
                                              (Some sample_onSuccessFn)) |}
           eq_refl (JStr EmptyString) cached_users_world eq_refl).
Defined.

(** The success callback of delete runs before the invalidation: when it
    throws after a resolved DELETE, the cached reads are not invalidated,
    the post-success callback is not called, and the execution rejects with
    the fixed error although the record is gone. *)
Theorem delete_success_callback_that_throws :
  forall (p : DeleteHookInput) (w w1 : World) (h : MutationHookReturn JsValue JsValue)
         (ctx : ContextProps),
    useDeleteCustomObjects p w = (Returned h, w1) ->
    reactContext w = Some ctx ->
    forall (cb : Callback) (e0 : JsError) (id v : JsValue) (w' : World),
      del_onSuccessFn p = Some cb ->
      cb_throws cb = Some e0 ->
      not_a_nonempty_string id = false ->
      request (zaf ctx) (delete_request (del_customObjectKey p) id) = Resolved v ->
      execute h id w'
      = (Thrown (delete_failure (del_customObjectKey p)),
         record_events [EvRequest (delete_request (del_customObjectKey p) id);
                        EvCall (cb_name cb) []] w').
Proof.
  intros p w w1 h ctx Hhook C cb e0 id v w' Hcb Hthrows Hid Hr.
  apply delete_hook_inv in Hhook as (_ & _ & _ & ctx' & C' & ->).
  rewrite C in C'. inversion C'; subst ctx'.
  unfold delete_execute, mutateAsync, try_catch.
  cbn [mutationFn onSuccess onError]. unfold delete_mutationFn. rewrite Hid. cbn [fire].
  unfold bind at 1 2.
  rewrite (fire_with_resolved (zaf ctx) (ToString (del_customObjectKey p)) None _ w' Hr).
  unfold delete_onSuccess, call_if_provided, call. rewrite Hcb, Hthrows.
  reflexivity.
Qed.

Lemma delete_success_callback_that_throws_witness :
  delete_execute sample_context
    (mkDeleteHookInput (JStr "users") (Some sample_postActionFn)
                       (Some (mkCallback "onSuccessFn" (Some (Error "boom")))))
    (JStr "42") cached_users_world
  = (Thrown (delete_failure (JStr "users")),
     record_events [EvRequest (delete_request (JStr "users") (JStr "42"));
                    EvCall "onSuccessFn" []] cached_users_world).
Proof.
  exact (@delete_success_callback_that_throws
           (mkDeleteHookInput (JStr "users") (Some sample_postActionFn)
                              (Some (mkCallback "onSuccessFn" (Some (Error "boom")))))
           sample_world sample_world
           {| execute := delete_execute sample_context
                           (mkDeleteHookInput (JStr "users") (Some sample_postActionFn)
                              (Some (mkCallback "onSuccessFn" (Some (Error "boom"))))) |}
           sample_context eq_refl eq_refl
           (mkCallback "onSuccessFn" (Some (Error "boom"))) (Error "boom")
           (JStr "42") (JArr [JObj [("id", JStr "1")]]) cached_users_world
           eq_refl eq_refl eq_refl eq_refl).
Defined.

(** A falsy name (left out, empty, [null]) is not put into the update body:
    the execution is the one of the same update with the name left out. *)
Theorem update_ignores_a_falsy_name :
  forall (p : UpdateHookInput) (w w1 : World)
         (h : MutationHookReturn UpdateVariables JsValue),
    useUpdateCustomObjects p w = (Returned h, w1) ->
    forall (name cof id : JsValue) (w' : World),
      truthy name = false ->
      execute h (mkUpdateVariables name cof id) w'
      = execute h (mkUpdateVariables JUndefined cof id) w'.
Proof.
  intros p w w1 h Hhook name cof id w' Hname.
  apply update_hook_inv in Hhook as (_ & ctx & _ & ->).
  unfold update_execute, mutateAsync, try_catch, bind.
  cbn [mutationFn onSuccess onError]. unfold update_mutationFn.
  cbn [uv_name uv_custom_object_fields uv_id truthy]. now rewrite Hname.
Qed.

Lemma update_ignores_a_falsy_name_witness :
  update_execute sample_context (mkUpdateHookInput (JStr "users") None None)
    (mkUpdateVariables (JStr EmptyString) (JObj [("gender", JStr "F")]) (JStr "42"))
    sample_world
  = update_execute sample_context (mkUpdateHookInput (JStr "users") None None)
      (mkUpdateVariables JUndefined (JObj [("gender", JStr "F")]) (JStr "42"))
      sample_world.
Proof.
  exact (@update_ignores_a_falsy_name
           (mkUpdateHookInput (JStr "users") None None) sample_world sample_world
           {| execute := update_execute sample_context
                           (mkUpdateHookInput (JStr "users") None None) |}
           eq_refl (JStr EmptyString) (JObj [("gender", JStr "F")]) (JStr "42")
           sample_world eq_refl).
Defined.

(* ===================================================================== *)
(** ** Further properties: the insert hook *)
(* ===================================================================== *)

Lemma insert_mutationFn_returned (client : ZafClient) (key : string) (k : JsValue)
      (input : InsertInput) (r : JsValue) (w w1 : World) :
  insert_mutationFn (mkClient (fire_with client key None)) k input w = (Returned r, w1) ->
  not_a_nonempty_string (ins_name input) = false
  /\ truthy (ins_custom_object_fields input) = true
  /\ typeof (ins_custom_object_fields input) = "object"
  /\ w1 = record_event
            (EvRequest (fire_request key None
                          {| fp_endpoint := "/records";
                             fp_pathParams := Some [("customObjectKey", k)];
                             fp_params := None;
                             fp_method := POST;
                             fp_data :=
                               JObj [("custom_object_record",
                                      JObj [("name", ins_name input);
                                            ("custom_object_fields",
                                             ins_custom_object_fields input)])] |})) w
  /\ request client
       (fire_request key None
          {| fp_endpoint := "/records";
             fp_pathParams := Some [("customObjectKey", k)];
             fp_params := None;
             fp_method := POST;
             fp_data :=
               JObj [("custom_object_record",
                      JObj [("name", ins_name input);
                            ("custom_object_fields", ins_custom_object_fields input)])] |})
     = Resolved r.
Proof.
  unfold insert_mutationFn.
  destruct (not_a_nonempty_string (ins_name input)); [discriminate|].
  destruct (truthy (ins_custom_object_fields input)); cbn [negb orb]; [|discriminate].
  destruct (String.eqb_spec (typeof (ins_custom_object_fields input)) "object") as [E|E];
    cbn [negb]; [|discriminate].
  cbn [fire]. intros H.
  apply bind_returned in H as (a & w' & H1 & H2).
  apply fire_with_returned in H1 as [-> Hr].
  inversion H2; subst. repeat split; trivial.
Qed.

Lemma insert_onSuccess_returned (key : string) (postActionFn : option Callback)
      (data : JsValue) (w w2 : World) :
  insert_onSuccess key postActionFn data w = (Returned tt, w2) ->
  w2 = record_events (opt_call postActionFn [])
         (with_queryCache
            (map (invalidate_entry [cache_tag key]) (queryCache w))
            (record_event (EvInvalidate [cache_tag key]) w)).
Proof.
  unfold insert_onSuccess. intros H.
  apply bind_returned in H as ([] & w' & H1 & H2).
  rewrite invalidateQueries_run in H1. inversion H1; subst w'.
  now apply call_if_provided_returned in H2.
Qed.

(** An insert that resolves: the checks, the response, the events in order,
    the cache. *)
Lemma insert_execute_success (ctx : ContextProps) (p : PostHookInput)
      (input : InsertInput) (res : JsValue) (w w2 : World) :
  insert_execute ctx p input w = (Returned res, w2) ->
  not_a_nonempty_string (ins_name input) = false
  /\ typeof (ins_custom_object_fields input) = "object"
  /\ request (zaf ctx) (insert_request (post_customObjectKey p) input) = Resolved res
  /\ trace w2
     = (trace w ++ [EvRequest (insert_request (post_customObjectKey p) input);
                    EvInvalidate [cache_tag (ToString (post_customObjectKey p))]]
          ++ opt_call (post_postActionFn p) [])%list
  /\ queryCache w2
     = map (invalidate_entry [cache_tag (ToString (post_customObjectKey p))]) (queryCache w)
  /\ reactContext w2 = reactContext w
  /\ queryClientSet w2 = queryClientSet w.
Proof.
  unfold insert_execute. intros H.
  apply mutateAsync_returned in H as (w0 & Hfn & Hok). cbn [mutationFn onSuccess] in *.
  apply insert_mutationFn_returned in Hfn as (Hname & _ & Htype & -> & Hr).
  apply insert_onSuccess_returned in Hok. subst w2.
  split; [exact Hname|]. split; [exact Htype|]. split; [exact Hr|]. split; [|split].
  - rewrite trace_record_events. cbn [trace with_queryCache record_event].
    unfold insert_request. now rewrite <- !app_assoc.
  - now rewrite queryCache_record_events.
  - match goal with
    | |- reactContext (record_events ?evs ?w0) = _ /\ _ =>
        destruct (static_record_events evs w0) as (E1 & E2 & _)
    end.
    rewrite E1, E2. now split.
Qed.

(** When an execution of a constructed insert hook resolves, its input
    passed both checks, the result is what the transport resolved the POST
    with, and the events after the POST are the invalidation of the reads
    under the resource key's cache tag and then the post-action callback (if
    provided).  From then on a query hook for the same resource key sends a
    fresh search. *)
Theorem insert_success_order :
  forall (p : PostHookInput) (w w1 : World) (h : MutationHookReturn InsertInput JsValue)
         (ctx : ContextProps),
    usePostCustomObjects p w = (Returned h, w1) ->
    reactContext w = Some ctx ->
    forall (w' w2 : World) (input : InsertInput) (res : JsValue),
      execute h input w' = (Returned res, w2) ->
      not_a_nonempty_string (ins_name input) = false
      /\ typeof (ins_custom_object_fields input) = "object"
      /\ request (zaf ctx) (insert_request (post_customObjectKey p) input) = Resolved res
      /\ trace w2
         = (trace w' ++ [EvRequest (insert_request (post_customObjectKey p) input);
                         EvInvalidate [cache_tag (ToString (post_customObjectKey p))]]
              ++ opt_call (post_postActionFn p) [])%list
      /\ (reactContext w' <> None ->
          queryClientSet w' = true ->
          forall (params : HookParams) (t : N),
            hp_customObjectKey params = post_customObjectKey p ->
            is_given (hp_filterCriteria params) && is_given (hp_searchBySingleField params)
            = false ->
            fetching_enabled params = true ->
            trace (world_after (useQueryCustomObjects params) (at_time t w2))
            = (trace w2 ++ [EvRequest (search_request (hp_customObjectKey params)
                                         (hp_filterCriteria params)
                                         (hp_searchBySingleField params))])%list).
Proof.
  intros p w w1 h ctx Hhook C w' w2 input res Hexec.
  assert (K : not_a_nonempty_string (post_customObjectKey p) = false).
  { destruct (not_a_nonempty_string (post_customObjectKey p)) eqn:K; [|reflexivity].
    unfold usePostCustomObjects in Hhook. unfold bind at 1 in Hhook.
    destruct (useQueryClient w) as [[[]|e] w0]; [|discriminate].
    rewrite K in Hhook. discriminate. }
  apply insert_hook_inv in Hhook as (_ & ctx' & C' & Eh).
  rewrite C in C'. inversion C'; subst ctx'. rewrite Eh in Hexec.
  apply insert_execute_success in Hexec
    as (Hname & Htype & Hr & Htrace & Hcache & Hctx & Hq).
  split; [exact Hname|]. split; [exact Htype|]. split; [exact Hr|].
  split; [exact Htrace|].
  intros Cw' Q params t Hkey Hexcl Hen.
  destruct (reactContext w') as [ctx'|] eqn:C''; [|now elim Cw'].
  apply (query_hook_fetches params (at_time t w2) (ctx := ctx')); trivial.
  - cbn. now rewrite Hq.
  - now rewrite Hkey.
  - cbn [at_time queryCache]. rewrite Hcache, Hkey.
    destruct (find_entry
                (map (invalidate_entry [cache_tag (ToString (post_customObjectKey p))])
                   (queryCache w'))
                (query_key_of (post_customObjectKey p))) as [entry|] eqn:E; [|exact I].
    exact (find_entry_invalidated _ _ _ (cache_tag_matches_query_key _) E).
Qed.

Lemma insert_success_order_witness :
  trace (world_after
           (insert_execute sample_context
              (mkPostHookInput (JStr "users") (Some sample_postActionFn))
              (mkInsertInput (JStr "Ann") (JObj [("cpf", JStr "111")])))
           cached_users_world)
  = [EvRequest (insert_request (JStr "users")
                  (mkInsertInput (JStr "Ann") (JObj [("cpf", JStr "111")])));
     EvInvalidate ["query-custom-objects-users"];
     EvCall "postActionFn" []].
Proof.
  exact (proj1 (proj2 (proj2 (proj2
           (@insert_success_order
              (mkPostHookInput (JStr "users") (Some sample_postActionFn))
              sample_world sample_world
              {| execute := insert_execute sample_context
                              (mkPostHookInput (JStr "users") (Some sample_postActionFn)) |}
              sample_context eq_refl eq_refl
              cached_users_world
              (world_after
                 (insert_execute sample_context
                    (mkPostHookInput (JStr "users") (Some sample_postActionFn))
                    (mkInsertInput (JStr "Ann") (JObj [("cpf", JStr "111")])))
                 cached_users_world)
              (mkInsertInput (JStr "Ann") (JObj [("cpf", JStr "111")]))
              (JArr [JObj [("id", JStr "1")]])
              eq_refl))))).
Defined.












(** With a valid name, a field mapping that is missing, [null] or not an
    object is refused before anything is sent; an array counts as an object
    and goes through to the POST. *)
Theorem insert_checks_the_field_mapping :
  forall (p : PostHookInput) (w w1 : World) (h : MutationHookReturn InsertInput JsValue),
    usePostCustomObjects p w = (Returned h, w1) ->
    forall (name : JsValue) (w' : World),
      not_a_nonempty_string name = false ->
      (forall cof,
          truthy cof = false \/ typeof cof <> "object" ->
          execute h (mkInsertInput name cof) w'
          = (Thrown (Error "custom_object_fields is required and must be an object"),
             record_event
               (EvConsoleError "Error creating custom object record:"
                  (Error "custom_object_fields is required and must be an object")) w'))
      /\ (forall items,
            exists rest,
              trace (world_after (execute h (mkInsertInput name (JArr items))) w')
              = (trace w' ++ EvRequest (insert_request (post_customObjectKey p)
                                          (mkInsertInput name (JArr items))) :: rest)%list).
Proof.
  intros p w w1 h Hhook name w' Hname.
  apply insert_hook_inv in Hhook as (_ & ctx & _ & ->). split.
  - intros cof Hcof.
    unfold insert_execute, mutateAsync, try_catch, bind.
    cbn [mutationFn onSuccess onError]. unfold insert_mutationFn.
    cbn [ins_name ins_custom_object_fields]. rewrite Hname.
    assert (E : negb (truthy cof) || negb (String.eqb (typeof cof) "object") = true).
    { destruct Hcof as [-> | Ht]; [reflexivity|].
      apply orb_true_iff. right. apply negb_true_iff.
      now apply String.eqb_neq. }
    rewrite E. reflexivity.
  - intros items.
    destruct (insert_execute_valid ctx p (mkInsertInput name (JArr items)) w'
                Hname eq_refl eq_refl) as (rest & Htrace & _).
    now exists rest.
Qed.

Lemma insert_checks_the_field_mapping_witness :
  insert_execute sample_context (mkPostHookInput (JStr "users") None)
    (mkInsertInput (JStr "Ann") (JStr "cpf=111")) sample_world
  = (Thrown (Error "custom_object_fields is required and must be an object"),
     record_event
       (EvConsoleError "Error creating custom object record:"
          (Error "custom_object_fields is required and must be an object")) sample_world).
Proof.
  refine (proj1 (@insert_checks_the_field_mapping
                   (mkPostHookInput (JStr "users") None) sample_world sample_world
                   {| execute := insert_execute sample_context
                                   (mkPostHookInput (JStr "users") None) |}
                   eq_refl (JStr "Ann") sample_world eq_refl)
                (JStr "cpf=111") _).
  right. discriminate.
Defined.

(* ===================================================================== *)
(** ** Further properties: the scope of an invalidation *)
(* ===================================================================== *)







(* ===================================================================== *)
(** ** Further properties: the query string *)
(* ===================================================================== *)

Lemma join_snoc (sep x : string) (parts : list string) :
  parts <> [] -> join sep (parts ++ [x])%list = join sep parts ++ sep ++ x.
Proof.
  induction parts as [|p rest IH]; intros Hne; [now elim Hne|].
  destruct rest as [|q rest]; [reflexivity|].
  change (join sep ((p :: q :: rest) ++ [x])%list)
    with (p ++ sep ++ join sep ((q :: rest) ++ [x])%list).
  rewrite IH by discriminate.
  change (join sep (p :: q :: rest)) with (p ++ sep ++ join sep (q :: rest)).
  now rewrite !append_assoc.
Qed.

(** The query string is built entry by entry, in order and without any
    encoding: after at least one entry, one more entry adds [&key=value]
    (the value's string form as it is) at the end; the first entry follows
    the [?] directly. *)
Theorem convertQueryParams_one_more_entry :
  forall (path k : string) (v : JsValue) (params : Params),
    params <> [] ->
    convertQueryParams path (params ++ [(k, v)])%list
    = convertQueryParams path params ++ "&" ++ k ++ "=" ++ ToString v.
Proof.
  intros path k v params Hne. unfold convertQueryParams.
  rewrite map_app. cbn [map fst snd].
  rewrite join_snoc.
  - now rewrite !append_assoc.
  - destruct params; [now elim Hne | discriminate].
Qed.

Lemma convertQueryParams_one_more_entry_witness :
  convertQueryParams "/p" ([("a", JNum 1)] ++ [("q", JStr "x y&z")])%list = "/p?a=1&q=x y&z".
Proof.
  exact (@convertQueryParams_one_more_entry "/p" "q" (JStr "x y&z") [("a", JNum 1)]
           ltac:(discriminate)).
Defined.
